(** * prime-observer: the collector and the window transform

    A shallow embedding of [bin/collector.py] and [bin/transform_latest.py],
    and the properties of the specification stated over it.

    Conventions of the embedding.
    - A Python [str] is a list of Unicode code points ([pystr]).
    - A Python [float] is the rational it denotes ([Q]); the rounding of
      intermediate results to binary64 is not part of the model, and
      neither are infinities and NaN.
    - A call that may raise returns a [result]: [Ok v] or [Raise e].
    - The outside world (child processes, the clock, the file system, the
      decoders of the Python library) enters through explicit arguments. *)

From Stdlib Require Import ZArith QArith Qround Lia Lqa List Sorting.Permutation
  Sorting.Sorted Strings.String Strings.Ascii.
From stdpp Require Import base option list gmap pretty.

Import ListNotations.
Local Open Scope Z_scope.

(* ===================================================================== *)
(** * Python values *)
(* ===================================================================== *)

Module Py.

(** The exceptions that the two scripts can meet. *)
Inductive exn : Type :=
  | TimeoutExpired
  | FileNotFoundError
  | ValueError
  | TypeError
  | AttributeError
  | IndexError
  | JSONDecodeError
  | OSError.

Inductive result (A : Type) : Type :=
  | Ok (a : A)
  | Raise (e : exn).
Arguments Ok {A} a.
Arguments Raise {A} e.

Definition bind {A B : Type} (m : result A) (k : A -> result B) : result B :=
  match m with
  | Ok a => k a
  | Raise e => Raise e
  end.

(** [try: m except Exception: h] *)
Definition try_except {A : Type} (m : result A) (h : result A) : result A :=
  match m with
  | Ok a => Ok a
  | Raise _ => h
  end.

(** ** Strings *)

Abbreviation codepoint := N.
Abbreviation pystr := (list N).

Fixpoint of_string (s : string) : pystr :=
  match s with
  | EmptyString => []
  | String c s' => N_of_ascii c :: of_string s'
  end.

(** [a == b] on two strings. *)
Fixpoint eqb_str (a b : pystr) : bool :=
  match a, b with
  | [], [] => true
  | x :: a', y :: b' => (x =? y)%N && eqb_str a' b'
  | _, _ => false
  end.

Definition TAB : codepoint := 9%N.
Definition LF : codepoint := 10%N.
Definition CR : codepoint := 13%N.
Definition SPACE : codepoint := 32%N.
Definition DQUOTE : codepoint := 34%N.
Definition COMMA : codepoint := 44%N.

Definition in_range (lo hi c : N) : bool := ((lo <=? c) && (c <=? hi))%N.

(** The line boundaries of [str.splitlines]: LF, VT, FF, CR, FS, GS, RS,
    NEL, LINE SEPARATOR and PARAGRAPH SEPARATOR. *)
Definition is_linebreak (c : codepoint) : bool :=
  in_range 10 13 c || in_range 28 30 c || (c =? 133)%N
  || in_range 8232 8233 c.

(** [str.isspace] on one character: what [str.strip()] removes. *)
Definition isspace (c : codepoint) : bool :=
  in_range 9 13 c || in_range 28 32 c || (c =? 133)%N || (c =? 160)%N
  || (c =? 5760)%N || in_range 8192 8202 c || in_range 8232 8233 c
  || (c =? 8239)%N || (c =? 8287)%N || (c =? 12288)%N.

(** [s.splitlines()]: the lines of [s] without their boundaries; CR LF
    is one boundary, and a boundary that ends the text opens no line. *)
Fixpoint splitlines (s : pystr) : list pystr :=
  match s with
  | [] => []
  | c :: rest =>
      if is_linebreak c then
        [] :: match rest with
              | c' :: rest' =>
                  if ((c =? CR) && (c' =? LF))%N then splitlines rest'
                  else splitlines rest
              | [] => []
              end
      else
        match splitlines rest with
        | [] => [[c]]
        | l :: ls => (c :: l) :: ls
        end
  end.

(** [sep.join(parts)] *)
Fixpoint join (sep : pystr) (parts : list pystr) : pystr :=
  match parts with
  | [] => []
  | [p] => p
  | p :: ps => p ++ sep ++ join sep ps
  end.

(** [s.replace(old, new)] for one-character [old] and [new]. *)
Definition replace_char (old new : codepoint) (s : pystr) : pystr :=
  map (fun c => if (c =? old)%N then new else c) s.

Fixpoint lstrip (s : pystr) : pystr :=
  match s with
  | [] => []
  | c :: s' => if isspace c then lstrip s' else s
  end.

Definition rstrip (s : pystr) : pystr := rev (lstrip (rev s)).

(** [s.strip()] *)
Definition strip (s : pystr) : pystr := rstrip (lstrip s).

End Py.

(* ===================================================================== *)
(** * Numbers *)
(* ===================================================================== *)

Module Num.

(** [int(x)] on a float: truncation towards zero. *)
Definition trunc (x : Q) : Z := Z.quot (Qnum x) (Zpos (Qden x)).

(** Rounding to the nearest integer, ties to even. *)
Definition round_half_even (x : Q) : Z :=
  let f := Qfloor x in
  match (x - inject_Z f ?= 1 # 2)%Q with
  | Lt => f
  | Gt => f + 1
  | Eq => if Z.even f then f else f + 1
  end.

Definition pow10 (n : nat) : positive := Z.to_pos (10 ^ Z.of_nat n).

(** [round(x, ndigits)] *)
Definition py_round (x : Q) (ndigits : nat) : Q :=
  Qred (round_half_even (x * inject_Z (Zpos (pow10 ndigits))) # pow10 ndigits).

Definition Qsum (l : list Q) : Q := fold_right Qplus 0%Q l.

Definition len {A : Type} (l : list A) : Z := Z.of_nat (length l).

(** [statistics.mean] *)
Definition mean (l : list Q) : Q := (Qsum l / inject_Z (len l))%Q.

(** [statistics.pvariance]: the mean of the squared deviations from the
    mean, the sum divided by n. *)
Definition pvariance (l : list Q) : Q :=
  let mu := mean l in
  (Qsum (map (fun x => (x - mu) * (x - mu)) l) / inject_Z (len l))%Q.

(** [max(l)] on a non-empty list: the first of the largest elements. *)
Definition py_max (x : Q) (l : list Q) : Q :=
  fold_left (fun best y => if Qle_bool y best then best else y) l x.

(** [sorted(l)]: ascending and stable. *)
Fixpoint insert_sorted (x : Q) (l : list Q) : list Q :=
  match l with
  | [] => [x]
  | y :: l' => if Qle_bool x y then x :: l else y :: insert_sorted x l'
  end.

Definition sorted (l : list Q) : list Q := fold_right insert_sorted [] l.

End Num.

(* ===================================================================== *)
(** * The csv writer and the file system *)
(* ===================================================================== *)

Module Csv.
Import Py.

(** [csv.writer] with the default dialect and QUOTE_MINIMAL: a field is
    quoted when it holds the delimiter, the quote character or a
    character of the line terminator; a quote inside it is doubled. *)
Definition special (c : codepoint) : bool :=
  ((c =? COMMA) || (c =? DQUOTE) || (c =? CR) || (c =? LF))%N.

Definition escape (field : pystr) : pystr :=
  flat_map (fun c => if (c =? DQUOTE)%N then [DQUOTE; DQUOTE] else [c]) field.

Definition render_field (field : pystr) : pystr :=
  if existsb special field then [DQUOTE] ++ escape field ++ [DQUOTE]
  else field.

(** [writer.writerow(fields)]: the text of one record, with its
    terminator. A row of one empty field is written as two quotes. *)
Definition writerow (fields : list pystr) : pystr :=
  match fields with
  | [[]] => [DQUOTE; DQUOTE; CR; LF]
  | _ => join [COMMA] (map render_field fields) ++ [CR; LF]
  end.

Inductive rstate : Type :=
  | StartRecord
  | StartField
  | InField
  | InQuoted
  | QuoteInQuoted.

Definition is_eol (c : codepoint) : bool := ((c =? CR) || (c =? LF))%N.

(** [csv.reader] with the default dialect, on the characters of a text
    up to the end of its first record: the fields of that record. A line
    end outside quotes ends the record; inside quotes it belongs to the
    field; a doubled quote inside quotes is one quote. *)
Fixpoint read_row (st : rstate) (field : pystr) (row : list pystr) (s : pystr)
  : list pystr :=
  match s with
  | [] => match st with StartRecord => row | _ => row ++ [field] end
  | c :: s' =>
      match st with
      | StartRecord | StartField =>
          if is_eol c then
            match st with StartRecord => row | _ => row ++ [field] end
          else if (c =? DQUOTE)%N then read_row InQuoted field row s'
          else if (c =? COMMA)%N then read_row StartField [] (row ++ [field]) s'
          else read_row InField (field ++ [c]) row s'
      | InField =>
          if is_eol c then row ++ [field]
          else if (c =? COMMA)%N then read_row StartField [] (row ++ [field]) s'
          else read_row InField (field ++ [c]) row s'
      | InQuoted =>
          if (c =? DQUOTE)%N then read_row QuoteInQuoted field row s'
          else read_row InQuoted (field ++ [c]) row s'
      | QuoteInQuoted =>
          if (c =? DQUOTE)%N then read_row InQuoted (field ++ [c]) row s'
          else if (c =? COMMA)%N then read_row StartField [] (row ++ [field]) s'
          else if is_eol c then row ++ [field]
          else read_row InField (field ++ [c]) row s'
      end
  end.

Definition reader (text : pystr) : list pystr := read_row StartRecord [] [] text.

(** The two states in which a field is about to start. *)
Definition at_start (st : rstate) : Prop := st = StartRecord \/ st = StartField.

End Csv.

Module Fs.
Import Py.

(** A path is the list of its components below the root. *)
Abbreviation path := (list pystr).

Inductive node : Type :=
  | Dir
  | File (content : pystr).

Abbreviation fs := (gmap path node).

(** [p.parent] *)
Definition parent (p : path) : path := removelast p.

(** [p.exists()]; the root always does. *)
Definition path_exists (s : fs) (p : path) : bool :=
  match p with
  | [] => true
  | _ :: _ => match s !! p with Some _ => true | None => false end
  end.

Definition is_dir (s : fs) (p : path) : bool :=
  match p with
  | [] => true
  | _ :: _ => match s !! p with Some Dir => true | _ => false end
  end.

(** [d.mkdir(parents=True, exist_ok=True)], from the root downwards:
    missing directories are made, existing ones are kept, and a regular
    file in the way is an error. *)
Fixpoint mkdir_from (base : path) (rest : list pystr) (s : fs) : result fs :=
  match rest with
  | [] => Ok s
  | c :: rest' =>
      let d := base ++ [c] in
      match s !! d with
      | Some (File _) => Raise OSError
      | Some Dir => mkdir_from d rest' s
      | None => mkdir_from d rest' (<[d := Dir]> s)
      end
  end.

Definition mkdir_parents (d : path) (s : fs) : result fs := mkdir_from [] d s.

(** [p.open("w")]: the file is created or emptied. *)
Definition open_w (p : path) (s : fs) : result fs :=
  if negb (is_dir s (parent p)) then Raise FileNotFoundError
  else match p, s !! p with
       | [], _ | _, Some Dir => Raise OSError
       | _, _ => Ok (<[p := File []]> s)
       end.

(** [f.write(text)] on the file opened at [p]. *)
Definition write (p : path) (text : pystr) (s : fs) : result fs :=
  match s !! p with
  | Some (File c) => Ok (<[p := File (c ++ text)]> s)
  | _ => Raise OSError
  end.

(** [src.replace(dst)]: one step that gives [dst] the file of [src] and
    removes the name [src]. *)
Definition replace (src dst : path) (s : fs) : result fs :=
  match s !! src, s !! dst with
  | Some (File c), Some (File _) | Some (File c), None =>
      Ok (<[dst := File c]> (delete src s))
  | _, _ => Raise OSError
  end.

End Fs.

(* ===================================================================== *)
(** * bin/collector.py *)
(* ===================================================================== *)

Module Collector.
Import Py Num.

Notation "'let*' x := m 'in' k" := (bind m (fun x => k))
  (at level 10, x name, m at level 100, k at level 200).

Definition PING_COUNT : Z := 10.
Definition TRACEROUTE_EVERY_MIN : Z := 15.
Definition SPEEDTEST_EVERY_MIN : Z := 30.
Definition MAX_HOPS : Z := 20.

Definition BASE : Fs.path := map of_string ["Users"; "mbeason"; "net-bakeoff"]%string.
Definition OUTDIR : Fs.path := BASE ++ [of_string "data"].

Definition FIELDNAMES : list pystr :=
  map of_string
    ["ts"; "phase_label"; "host"; "sent"; "received"; "loss_pct"; "avg_ms";
     "p50_ms"; "p95_ms"; "max_ms"; "jitter_ms"; "traceroute_snip";
     "speedtest_down_mbps"; "speedtest_up_mbps"; "speedtest_ping_ms";
     "speedtest_raw_json"]%string.

(** ** Child processes *)

Record CompletedProcess : Type := {
  returncode : Z;
  stdout : pystr;
  stderr : pystr
}.

(** What [subprocess.run(cmd, capture_output=True, text=True,
    timeout=t)] meets: the child exits within the timeout, with any
    return code (no [check=True]: a nonzero code is returned, not
    raised); the timeout expires; the executable does not exist. *)
Inductive outcome : Type :=
  | Exited (p : CompletedProcess)
  | TimedOut
  | NoSuchFile.

(** The host on which the collector runs. *)
Record world : Type := {
  spawn : list pystr -> Z -> outcome;
  which : pystr -> option pystr
}.

Definition run (w : world) (cmd : list pystr) (timeout : Z)
  : result CompletedProcess :=
  match spawn w cmd timeout with
  | Exited p => Ok p
  | TimedOut => Raise TimeoutExpired
  | NoSuchFile => Raise FileNotFoundError
  end.

(** [str(n)] for an [int]. *)
Definition str_of_int (n : Z) : pystr := of_string (pretty n).

(** ** PING_RE = time=([\d\.]+)\s*ms

    [\d] is taken as the ASCII digits (the decimal digits of other scripts,
    which a str pattern also accepts, are not modelled); [\s] is the
    whitespace of [str.isspace]. The two repetitions are greedy and are
    followed by a character outside their class, so giving characters back
    never turns a failed match into a successful one: the longest run is
    the only candidate. *)

Definition is_digit (c : codepoint) : bool := in_range 48 57 c.
Definition DOT : codepoint := 46%N.
Definition is_digit_or_dot (c : codepoint) : bool := is_digit c || (c =? DOT)%N.

Fixpoint span (p : codepoint -> bool) (s : pystr) : pystr * pystr :=
  match s with
  | [] => ([], [])
  | c :: s' =>
      if p c then let '(a, b) := span p s' in (c :: a, b) else ([], s)
  end.

Fixpoint strip_prefix (pre s : pystr) : option pystr :=
  match pre, s with
  | [], _ => Some s
  | a :: pre', b :: s' => if (a =? b)%N then strip_prefix pre' s' else None
  | _ :: _, [] => None
  end.

(** A match of the pattern that starts at the first character of [s]:
    the text of its group. *)
Definition match_here (s : pystr) : option pystr :=
  match strip_prefix (of_string "time=") s with
  | None => None
  | Some r =>
      let '(num, r1) := span is_digit_or_dot r in
      match num with
      | [] => None
      | _ :: _ =>
          match strip_prefix (of_string "ms") (snd (span isspace r1)) with
          | Some _ => Some num
          | None => None
          end
      end
  end.

(** [PING_RE.search(line)]: the leftmost match; [m.group(1)]. *)
Fixpoint PING_RE_search (line : pystr) : option pystr :=
  match match_here line with
  | Some g => Some g
  | None =>
      match line with
      | [] => None
      | _ :: line' => PING_RE_search line'
      end
  end.

Definition digit_value (c : codepoint) : Z := Z.of_N c - 48.

Definition digits_value (s : pystr) : Z :=
  fold_left (fun acc c => 10 * acc + digit_value c) s 0.

(** [float(s)] for [s] a non-empty run of ASCII digits and dots, which is
    what the group of PING_RE holds: a decimal literal has at most one
    dot and at least one digit; anything else is a ValueError. *)
Definition float_of_token (s : pystr) : result Q :=
  let '(ip, rest) := span is_digit s in
  match rest with
  | [] => match ip with [] => Raise ValueError | _ => Ok (inject_Z (digits_value ip)) end
  | c :: fp =>
      if (c =? DOT)%N && forallb is_digit fp
         && negb (Nat.eqb (length ip + length fp) 0)
      then Ok (Qred (digits_value (ip ++ fp) # pow10 (length fp)))
      else Raise ValueError
  end.

Fixpoint parse_lines (lines : list pystr) : result (list Q) :=
  match lines with
  | [] => Ok []
  | line :: lines' =>
      match PING_RE_search line with
      | Some g =>
          let* t := float_of_token g in
          let* times := parse_lines lines' in
          Ok (t :: times)
      | None => parse_lines lines'
      end
  end.

Definition parse_ping_times_ms (ping_stdout : pystr) : result (list Q) :=
  parse_lines (splitlines ping_stdout).

(** ** quantile *)

(** [v[i]] with Python's negative indices. *)
Definition getitem (v : list Q) (i : Z) : result Q :=
  let j := if i <? 0 then i + len v else i in
  if j <? 0 then Raise IndexError
  else match v !! Z.to_nat j with
       | Some x => Ok x
       | None => Raise IndexError
       end.

Definition quantile (values : list Q) (q : Q) : result (option Q) :=
  match values with
  | [] => Ok None
  | _ :: _ =>
      let v := sorted values in
      let idx := (inject_Z (len v - 1) * q)%Q in
      let lo := trunc idx in
      let hi := Z.min (lo + 1) (len v - 1) in
      if hi =? lo then
        let* x := getitem v lo in Ok (Some x)
      else
        let frac := (idx - inject_Z lo)%Q in
        let* a := getitem v lo in
        let* b := getitem v hi in
        Ok (Some (a * (1 - frac) + b * frac)%Q)
  end.

(** ** ping_target *)

(** A value of a row: a number, or the empty string that stands for an
    absent one. *)
Inductive cell : Type :=
  | CFloat (x : Q)
  | CBlank.

Definition cell_of (x : option Q) (ndigits : nat) : cell :=
  match x with
  | Some y => CFloat (py_round y ndigits)
  | None => CBlank
  end.

(** The dict that [ping_target] returns. *)
Record ping_stats : Type := {
  sent : Z;
  received : Z;
  loss_pct : Q;
  avg_ms : cell;
  p50_ms : cell;
  p95_ms : cell;
  max_ms : cell;
  jitter_ms : cell
}.

Section Latency.

(** The correctly rounded square root of the float library, with which
    [statistics.pstdev] ends. *)
Variable float_sqrt : Q -> Q.

Definition pstdev (l : list Q) : Q := float_sqrt (pvariance l).

Definition ping_args (host : pystr) (count : Z) : list pystr :=
  [of_string "/sbin/ping"; of_string "-n"; of_string "-c"; str_of_int count;
   of_string "-i"; of_string "0.2"; of_string "-W"; of_string "1000"; host].

(** The part of [ping_target] after the child has returned. *)
Definition ping_stats_of (times : list Q) (count : Z) : result ping_stats :=
  let sent := count in
  let received := len times in
  let loss_pct :=
    if sent =? 0 then 0%Q
    else (100 * inject_Z (sent - received) / inject_Z sent)%Q in
  let avg := match times with [] => None | _ :: _ => Some (mean times) end in
  let* p50 := match times with [] => Ok None | _ :: _ => quantile times (1 # 2) end in
  let* p95 := match times with [] => Ok None | _ :: _ => quantile times (95 # 100) end in
  let mx := match times with [] => None | t :: ts => Some (py_max t ts) end in
  let jitter := if 2 <=? len times then Some (pstdev times) else Some 0%Q in
  Ok {| sent := sent;
        received := received;
        loss_pct := py_round loss_pct 2;
        avg_ms := cell_of avg 3;
        p50_ms := cell_of p50 3;
        p95_ms := cell_of p95 3;
        max_ms := cell_of mx 3;
        jitter_ms := cell_of jitter 3 |}.

Definition ping_target (w : world) (host : pystr) (count : Z)
  : result ping_stats :=
  let* r := run w (ping_args host count) 8 in
  let* times := parse_ping_times_ms (stdout r) in
  ping_stats_of times count.

End Latency.

(** ** traceroute_snip *)

Definition SEP : pystr := of_string " | ".

Definition traceroute_args (host : pystr) : list pystr :=
  [of_string "/usr/sbin/traceroute"; of_string "-n"; of_string "-m";
   str_of_int MAX_HOPS; host].

Definition traceroute_snip (w : world) (host : pystr) : result pystr :=
  let* r := run w (traceroute_args host) 90 in
  let lines := splitlines (stdout r) in
  Ok (strip (join SEP (take 12 lines))).

(** ** run_ookla_speedtest *)

(** What [json.loads] returns. A dict is kept as its list of items, in
    which a key occurs once. *)
#[warnings="-register-all"]
Inductive json : Type :=
  | JNull
  | JBool (b : bool)
  | JNum (x : Q)
  | JStr (s : pystr)
  | JList (l : list json)
  | JDict (items : list (pystr * json)).

Fixpoint assoc (k : pystr) (items : list (pystr * json)) : option json :=
  match items with
  | [] => None
  | (k', v) :: items' => if eqb_str k' k then Some v else assoc k items'
  end.

(** [d.get(key, default)]; only a dict has the method. *)
Definition get (d : json) (key : pystr) (default : json) : result json :=
  match d with
  | JDict items => Ok (match assoc key items with Some v => v | None => default end)
  | _ => Raise AttributeError
  end.

(** The record that [run_ookla_speedtest] returns; [None] in a field is
    Python's None. *)
Record speedtest : Type := {
  down_mbps : option Q;
  up_mbps : option Q;
  ping_ms : option Q;
  raw_json : pystr
}.

Section Bandwidth.

(** [json.loads] and [float] on a str, from the Python library. *)
Variable json_loads : pystr -> result json.
Variable float_of_str : pystr -> result Q.

(** [float(x)] *)
Definition to_float (x : json) : result Q :=
  match x with
  | JNum y => Ok y
  | JBool b => Ok (if b then 1 else 0)%Q
  | JStr s => float_of_str s
  | JNull | JList _ | JDict _ => Raise TypeError
  end.

Definition is_none (x : json) : bool :=
  match x with JNull => true | _ => false end.

Definition bw_to_mbps (x : json) : result (option Q) :=
  if is_none x then Ok None
  else let* y := to_float x in Ok (Some (y * 8 / 1000000)%Q).

Definition have_ookla_speedtest (w : world) : bool :=
  match which w (of_string "speedtest") with
  | Some _ => true
  | None => false
  end.

Definition speedtest_args : list pystr :=
  [of_string "speedtest"; of_string "--accept-license";
   of_string "--accept-gdpr"; of_string "-f"; of_string "json"].

(** [round(f(x), 2) if x is not None else None] *)
Definition rounded_unless_none (f : json -> result (option Q)) (x : json)
  : result (option Q) :=
  if is_none x then Ok None
  else let* y := f x in
       match y with
       | Some z => Ok (Some (py_round z 2))
       | None => Raise TypeError
       end.

Definition run_ookla_speedtest (w : world) : result (option speedtest) :=
  if negb (have_ookla_speedtest w) then Ok None
  else
    let* r := run w speedtest_args 180 in
    if negb (returncode r =? 0) then Ok None
    else
      try_except
        (let* data := json_loads (stdout r) in
         let* download := get data (of_string "download") (JDict []) in
         let* down_b := get download (of_string "bandwidth") JNull in
         let* upload := get data (of_string "upload") (JDict []) in
         let* up_b := get upload (of_string "bandwidth") JNull in
         let* ping := get data (of_string "ping") (JDict []) in
         let* ping_ms := get ping (of_string "latency") JNull in
         let* down := rounded_unless_none bw_to_mbps down_b in
         let* up := rounded_unless_none bw_to_mbps up_b in
         let* png := rounded_unless_none
                       (fun x => let* y := to_float x in Ok (Some y)) ping_ms in
         Ok (Some {| down_mbps := down;
                     up_mbps := up;
                     ping_ms := png;
                     raw_json := strip (stdout r) |}))
        (Ok None).

End Bandwidth.

(** ** ensure_csv *)

Definition ensure_csv (p : Fs.path) (s : Fs.fs) : result Fs.fs :=
  if negb (Fs.path_exists s p) then
    let* s1 := Fs.mkdir_parents (Fs.parent p) s in
    let* s2 := Fs.open_w p s1 in
    Fs.write p (Csv.writerow FIELDNAMES) s2
  else Ok s.

(** [minute_bucket]: [now.hour * 60 + now.minute] *)
Definition minute_bucket (hour minute : Z) : Z := hour * 60 + minute.

End Collector.

(* ===================================================================== *)
(** * bin/transform_latest.py *)
(* ===================================================================== *)

Module Transform.
Import Py Num.

Definition BASE : Fs.path := map of_string ["Users"; "mbeason"; "net-bakeoff"]%string.
Definition DATA_DIR : Fs.path := BASE ++ [of_string "data"].
Definition VIZ_DIR : Fs.path := BASE ++ [of_string "viz"].
Definition OUT : Fs.path := VIZ_DIR ++ [of_string "latest.csv"].

(** A [timedelta] and the distance between instants, in microseconds. *)
Definition hours (h : Z) : Z := h * 3600 * 1000000.

Definition WINDOW_HOURS : Z := 24.
Definition WINDOW : Z := hours WINDOW_HOURS.

Definition SEP : pystr := of_string " | ".

(** [sanitize_field]; its argument is None or a str, on which [str(s)]
    is [s]. *)
Definition sanitize_field (s : option pystr) : pystr :=
  match s with
  | None => []
  | Some s => strip (replace_char TAB SPACE (join SEP (splitlines s)))
  end.

(** A [datetime]: the microseconds that its calendar fields count, and
    the offset of its zone from UTC when it has one. The limits of the
    calendar (years 1 to 9999) are not modelled. *)
Record datetime : Type := {
  wall : Z;
  utcoffset : option Z
}.

(** A row of [csv.DictReader]: a column of a short line holds None. *)
Abbreviation row := (gmap pystr (option pystr)).

(** [r.get(key, default)] *)
Definition get (r : row) (key : pystr) (default : option pystr) : option pystr :=
  match r !! key with
  | Some v => v
  | None => default
  end.

(** A file of the data directory, as [stat] and [csv.DictReader] present
    it: [fieldnames] is None for an empty file. *)
Record dataset : Type := {
  name : pystr;
  st_mtime : Q;
  fieldnames : option (list pystr);
  records : list row
}.

(** [max(files, key=...)]: the first file of the latest modification. *)
Definition newest_by_mtime (files : list dataset) : option dataset :=
  match files with
  | [] => None
  | f :: files' =>
      Some (fold_left
              (fun best g => if Qle_bool (st_mtime g) (st_mtime best) then best else g)
              files' f)
  end.

Section Window.

(** [datetime.fromisoformat], from the Python library. *)
Variable fromisoformat : pystr -> result datetime.

(** [parse_ts]: None on any exception, which includes the TypeError of
    an argument that is not a str. *)
Definition parse_ts (ts : option pystr) : option datetime :=
  match ts with
  | None => None
  | Some s =>
      match fromisoformat s with
      | Ok t => Some t
      | Raise _ => None
      end
  end.

(** [t.astimezone(timezone.utc)], after a naive [t] was given the zone
    UTC by [t.replace(tzinfo=timezone.utc)]: the instant of [t]. *)
Definition utc_instant (t : datetime) : Z :=
  match utcoffset t with
  | None => wall t
  | Some off => wall t - off
  end.

(** [if key in r: r[key] = sanitize_field(r.get(key, ""))] *)
Definition sanitize_column (key : pystr) (r : row) : row :=
  match r !! key with
  | Some _ => <[key := Some (sanitize_field (get r key (Some [])))]> r
  | None => r
  end.

Definition sanitize_row (r : row) : row :=
  sanitize_column (of_string "speedtest_raw_json")
    (sanitize_column (of_string "traceroute_snip") r).

(** The body of the loop over the reader: the row that is appended to
    [rows_out], or None where the loop continues. [now] is the instant of
    [datetime.now(timezone.utc)]. *)
Definition select (now : Z) (r : row) : option row :=
  let cutoff := now - WINDOW in
  match parse_ts (get r (of_string "ts") (Some [])) with
  | None => None
  | Some t => if utc_instant t <? cutoff then None else Some (sanitize_row r)
  end.

Definition rows_out (now : Z) (rows : list row) : list row :=
  omap (select now) rows.

(** ** Publishing the snapshot *)

(** [p.with_suffix(suffix)] on the last component: the text after the
    last dot, when that dot is neither first nor last, is the suffix that
    is replaced. *)
Fixpoint rfind_dot (name : pystr) (i : nat) (last : option nat) : option nat :=
  match name with
  | [] => last
  | c :: name' =>
      rfind_dot name' (S i) (if (c =? 46)%N then Some i else last)
  end.

Definition with_suffix_name (name suffix : pystr) : pystr :=
  match rfind_dot name 0 None with
  | Some i =>
      if (0 <? i)%nat && (i <? length name - 1)%nat then take i name ++ suffix
      else name ++ suffix
  | None => name ++ suffix
  end.

Definition with_suffix (p : Fs.path) (suffix : pystr) : Fs.path :=
  match last p with
  | Some n => Fs.parent p ++ [with_suffix_name n suffix]
  | None => p
  end.

Definition TMP : Fs.path := with_suffix OUT (of_string ".csv.tmp").

(** [DictWriter(..., extrasaction="ignore").writerow(r)]: the values of
    the columns in order, the empty string for a missing column or for
    None. *)
Definition row_values (cols : list pystr) (r : row) : list pystr :=
  map (fun k => match get r k (Some []) with Some v => v | None => [] end) cols.

(** The steps of [main] on the file system. *)
Inductive step : Type :=
  | MkdirParents (d : Fs.path)
  | OpenW (p : Fs.path)
  | WriteText (p : Fs.path) (text : pystr)
  | Replace (src dst : Fs.path).

Definition exec (st : step) (s : Fs.fs) : result Fs.fs :=
  match st with
  | MkdirParents d => Fs.mkdir_parents d s
  | OpenW p => Fs.open_w p s
  | WriteText p text => Fs.write p text s
  | Replace src dst => Fs.replace src dst s
  end.

(** The steps run in order; the first one that raises ends the process
    and leaves the file system as it was before that step. *)
Fixpoint exec_all (sts : list step) (s : Fs.fs) : Fs.fs * option exn :=
  match sts with
  | [] => (s, None)
  | st :: sts' =>
      match exec st s with
      | Ok s' => exec_all sts' s'
      | Raise e => (s, Some e)
      end
  end.

(** The text of the snapshot: the header and the selected rows. *)
Definition snapshot_lines (cols : list pystr) (rows : list row) : list pystr :=
  Csv.writerow cols :: map (fun r => Csv.writerow (row_values cols r)) rows.

Definition publish (cols : list pystr) (rows : list row) : list step :=
  [OpenW TMP] ++ map (WriteText TMP) (snapshot_lines cols rows)
  ++ [Replace TMP OUT].

(** [main]: nothing but the directory is touched when the data
    directory holds no file. *)
Definition main (now : Z) (files : list dataset) : list step :=
  MkdirParents VIZ_DIR ::
  match newest_by_mtime files with
  | None => []
  | Some src =>
      let cols := match fieldnames src with Some c => c | None => [] end in
      publish cols (rows_out now (records src))
  end.

End Window.

End Transform.

(* ===================================================================== *)
(** * The vocabulary of the specification *)
(* ===================================================================== *)

Module Spec.
Import Py Num.

(** A string of one line: no line boundary in it. *)
Definition no_break (s : pystr) : Prop :=
  Forall (fun c => is_linebreak c = false) s.

Definition no_tab (s : pystr) : Prop := Forall (fun c => c <> TAB) s.

(** Section 4.1, "Percentile(q)": sort ascending, take the real index
    (n-1)q, and interpolate between the order statistics on both sides
    of it by its fractional part. *)
Definition percentile_spec (samples : list Q) (q : Q) : Q :=
  let v := sorted samples in
  let idx := (inject_Z (len v - 1) * q)%Q in
  let below := nth (Z.to_nat (Qfloor idx)) v 0%Q in
  let above := nth (Z.to_nat (Qceiling idx)) v 0%Q in
  let frac := (idx - inject_Z (Qfloor idx))%Q in
  (below * (1 - frac) + above * frac)%Q.

(** Section 4.1, "Loss": 100 (sent - received) / sent, and 0 when
    nothing was sent. *)
Definition loss_of (sent received : Z) : Q :=
  if sent =? 0 then 0%Q
  else (100 * inject_Z (sent - received) / inject_Z sent)%Q.

(** The lines of the output of ping that PING_RE matches. *)
Definition is_reply (line : pystr) : bool :=
  match Collector.PING_RE_search line with Some _ => true | None => false end.

Definition reply_lines (ping_stdout : pystr) : list pystr :=
  List.filter is_reply (splitlines ping_stdout).



(** No regular file stands where [mkdir] has to find or make a
    directory. *)
Fixpoint clear_way (s : Fs.fs) (base : Fs.path) (rest : list pystr) : bool :=
  match rest with
  | [] => true
  | c :: rest' =>
      match s !! (base ++ [c]) with
      | Some (Fs.File _) => false
      | _ => clear_way s (base ++ [c]) rest'
      end
  end.

(** The header of a dataset file. *)
Definition header : pystr := Csv.writerow Collector.FIELDNAMES.

(** Section 4.5: the instant of a timestamp, a naive one being read in
    the reference zone, UTC. *)
Definition instant_of (t : Transform.datetime) : Z :=
  Transform.wall t - default 0 (Transform.utcoffset t).

(** Section 4.5: the timestamp of the row parses and does not fall
    strictly before now - 24 h. *)
Definition in_window (fromisoformat : pystr -> result Transform.datetime)
    (now : Z) (r : Transform.row) : Prop :=
  exists t,
    Transform.parse_ts fromisoformat
      (Transform.get r (of_string "ts") (Some [])) = Some t
    /\ ~ (instant_of t < now - Transform.hours 24).

(** The steps of [Transform.main] that leave the published file alone. *)
Definition safe (st : Transform.step) : bool :=
  match st with
  | Transform.MkdirParents d => (length d <? length Transform.OUT)%nat
  | Transform.OpenW p | Transform.WriteText p _ =>
      negb (bool_decide (p = Transform.OUT))
  | Transform.Replace src dst =>
      negb (bool_decide (src = Transform.OUT))
      && negb (bool_decide (dst = Transform.OUT))
  end.

(** The text of a whole snapshot. *)
Definition snapshot_text (cols : list pystr) (rows : list Transform.row) : pystr :=
  concat (Transform.snapshot_lines cols rows).

(** The steps of [Transform.publish] before the rename. *)
Definition staging (cols : list pystr) (rows : list Transform.row)
  : list Transform.step :=
  Transform.OpenW Transform.TMP
  :: map (Transform.WriteText Transform.TMP) (Transform.snapshot_lines cols rows).

Definition columns (src : Transform.dataset) : list pystr :=
  match Transform.fieldnames src with Some c => c | None => [] end.

End Spec.

(* ===================================================================== *)
(** * Concrete hosts and inputs, on which the model is run *)
(* ===================================================================== *)

Module Examples.
Import Py Num Collector.

(** A square root on the rationals, exact to twelve decimals, in the
    place of the float library's. *)
Definition sqrt12 (x : Q) : Q :=
  Qred (Z.sqrt (Qnum x * 10 ^ 24 / Zpos (Qden x)) # pow10 12).

Definition host : pystr := of_string "1.1.1.1".

Definition exited (code : Z) (out : pystr) : outcome :=
  Exited {| returncode := code; stdout := out; stderr := [] |}.


(** Every child exits with code [code] after printing [out]. *)
Definition printing (code : Z) (out : pystr) : world :=
  {| spawn := fun _ _ => exited code out;
     which := fun _ => Some (of_string "/usr/local/bin/speedtest") |}.

(** Two replies. *)
Definition two_replies : pystr :=
  of_string "64 bytes from 1.1.1.1: icmp_seq=0 ttl=57 time=1.0 ms" ++ [LF]
  ++ of_string "64 bytes from 1.1.1.1: icmp_seq=0 ttl=57 time=3.0 ms (DUP!)"
  ++ [LF].

(** One hop, its columns separated by a tab. *)
Definition hop_with_tab : pystr :=
  of_string " 1" ++ [TAB] ++ of_string "192.168.1.1  1.2 ms" ++ [LF].





Definition no_float (s : pystr) : result Q := Raise ValueError.

(** ** Timestamps

    A decoder of the timestamps that the collector writes,
    YYYY-MM-DDTHH:MM:SS followed or not by an offset +HH:MM or -HH:MM, in
    the place of [datetime.fromisoformat]; any other text is a
    ValueError. *)

Definition two_digits (a b : codepoint) : option Z :=
  if is_digit a && is_digit b then Some (10 * digit_value a + digit_value b)
  else None.

(** The days from 1970-01-01 to the day [y]-[m]-[d] of the Gregorian
    calendar. *)
Definition days_from_civil (y m d : Z) : Z :=
  let y' := if m <=? 2 then y - 1 else y in
  let era := y' / 400 in
  let yoe := y' - era * 400 in
  let doy := (153 * (m + (if 2 <? m then -3 else 9)) + 2) / 5 + d - 1 in
  let doe := yoe * 365 + yoe / 4 - yoe / 100 + doy in
  era * 146097 + doe - 719468.

Definition parse_offset (s : pystr) : option (option Z) :=
  match s with
  | [] => Some None
  | [sg; h1; h2; c; m1; m2] =>
      match two_digits h1 h2, two_digits m1 m2 with
      | Some h, Some m =>
          if negb (c =? 58)%N then None
          else if (sg =? 43)%N then Some (Some ((h * 60 + m) * 60 * 1000000))
          else if (sg =? 45)%N then Some (Some (- ((h * 60 + m) * 60 * 1000000)))
          else None
      | _, _ => None
      end
  | _ => None
  end.

Definition fromisoformat_seconds (s : pystr) : result Transform.datetime :=
  match s with
  | y1 :: y2 :: y3 :: y4 :: d1 :: mo1 :: mo2 :: d2 :: da1 :: da2 :: t
    :: h1 :: h2 :: c1 :: mi1 :: mi2 :: c2 :: s1 :: s2 :: rest =>
      match two_digits y1 y2, two_digits y3 y4, two_digits mo1 mo2,
            two_digits da1 da2, two_digits h1 h2, two_digits mi1 mi2,
            two_digits s1 s2, parse_offset rest with
      | Some ya, Some yb, Some mo, Some da, Some h, Some mi, Some se, Some off =>
          if ((d1 =? 45) && (d2 =? 45) && (t =? 84) && (c1 =? 58) && (c2 =? 58))%N
             && (1 <=? mo) && (mo <=? 12) && (1 <=? da) && (da <=? 31)
             && (h <? 24) && (mi <? 60) && (se <? 60)
          then Ok {| Transform.wall :=
                       (((days_from_civil (100 * ya + yb) mo da * 24 + h) * 60
                         + mi) * 60 + se) * 1000000;
                     Transform.utcoffset := off |}
          else Raise ValueError
      | _, _, _, _, _, _, _, _ => Raise ValueError
      end
  | _ => Raise ValueError
  end.

(** The instant 2026-02-11T23:18:01 UTC. *)
Definition clock : Z :=
  (((days_from_civil 2026 2 11 * 24 + 23) * 60 + 18) * 60 + 1) * 1000000.

Definition record_at (ts route : pystr) : Transform.row :=
  list_to_map
    [(of_string "ts", Some ts); (of_string "host", Some host);
     (of_string "traceroute_snip", Some route)].

(** Three rows: of now, of 23 hours ago and of 25 hours ago, in the zone
    UTC-7; a naive one of an hour ago; one whose timestamp is no
    timestamp. *)
Definition row_now : Transform.row :=
  record_at (of_string "2026-02-11T16:18:01-07:00")
    (of_string "1  10.0.0.1" ++ [LF] ++ of_string "2  10.0.0.2").
Definition row_25h : Transform.row :=
  record_at (of_string "2026-02-10T15:18:01-07:00") [].
Definition row_naive : Transform.row :=
  record_at (of_string "2026-02-11T22:18:01") [].
Definition row_broken : Transform.row :=
  record_at (of_string "yesterday") [].

Definition day_file (rows : list Transform.row) : Transform.dataset :=
  {| Transform.name := of_string "bakeoff_20260211.csv";
     Transform.st_mtime := 0;
     Transform.fieldnames :=
       Some [of_string "ts"; of_string "host"; of_string "traceroute_snip"];
     Transform.records := rows |}.

End Examples.

(* ===================================================================== *)
(** * bin/collector.py: the phase label and the run *)
(* ===================================================================== *)

Module Run.
Import Py Num Collector.

Definition TARGETS : list pystr :=
  map of_string ["192.168.1.1"; "1.1.1.1"; "9.9.9.9"]%string.

Definition PHASE_FILE : Fs.path := BASE ++ [of_string "phase.txt"].

Definition UNKNOWN : pystr := of_string "UNKNOWN".

(** The environment of the process. *)
Abbreviation environ := (gmap pystr pystr).

(** What a file opened in text mode hands out: CR LF and a lone CR read
    as LF. *)
Fixpoint universal_newlines (s : pystr) : pystr :=
  match s with
  | [] => []
  | c :: rest =>
      if (c =? CR)%N then
        LF :: match rest with
              | c' :: rest' =>
                  if (c' =? LF)%N then universal_newlines rest'
                  else universal_newlines rest
              | [] => []
              end
      else c :: universal_newlines rest
  end.

(** [p.read_text()] *)
Definition read_text (p : Fs.path) (s : Fs.fs) : result pystr :=
  match s !! p with
  | Some (Fs.File c) => Ok (universal_newlines c)
  | Some Fs.Dir => Raise OSError
  | None => Raise FileNotFoundError
  end.

(** [read_phase] *)
Definition read_phase (env : environ) (s : Fs.fs) : result pystr :=
  let env_phase := strip (default [] (env !! of_string "PHASE")) in
  match env_phase with
  | _ :: _ => Ok env_phase
  | [] =>
      if Fs.path_exists s PHASE_FILE then
        let* text := read_text PHASE_FILE s in
        Ok (match strip text with [] => UNKNOWN | _ :: _ => strip text end)
      else Ok UNKNOWN
  end.

(** [bucket % every == 0] *)
Definition due (bucket every : Z) : bool := bucket mod every =? 0.

(** The local time of the run, as [datetime] presents it:
    [now.hour], [now.minute], [now.isoformat(timespec="seconds")] and
    [now.strftime('%Y%m%d')]. *)
Record clock : Type := {
  hour : Z;
  minute : Z;
  isoformat : pystr;
  yyyymmdd : pystr
}.

(** A value of a row dict. *)
Inductive value : Type :=
  | VStr (s : pystr)
  | VInt (n : Z)
  | VFloat (x : Q)
  | VNone.

Definition of_cell (c : cell) : value :=
  match c with
  | CFloat x => VFloat x
  | CBlank => VStr []
  end.

Definition of_measure (x : option Q) : value :=
  match x with
  | Some y => VFloat y
  | None => VNone
  end.

(** The items of the dict of [ping_target]. *)
Definition stats_items (r : ping_stats) : list (pystr * value) :=
  [(of_string "sent", VInt (sent r));
   (of_string "received", VInt (received r));
   (of_string "loss_pct", VFloat (loss_pct r));
   (of_string "avg_ms", of_cell (avg_ms r));
   (of_string "p50_ms", of_cell (p50_ms r));
   (of_string "p95_ms", of_cell (p95_ms r));
   (of_string "max_ms", of_cell (max_ms r));
   (of_string "jitter_ms", of_cell (jitter_ms r))].

(** [d.update(items)] *)
Definition update (items : list (pystr * value)) (d : gmap pystr value)
  : gmap pystr value :=
  fold_left (fun m kv => <[kv.1 := kv.2]> m) items d.

(** [st[key] if st else ""] *)
Definition st_value (st : option speedtest) (f : speedtest -> value) : value :=
  match st with
  | Some d => f d
  | None => VStr []
  end.

(** The row of one target. *)
Definition row_of (ts phase host snip : pystr) (st : option speedtest)
    (stats : ping_stats) : gmap pystr value :=
  update (stats_items stats)
    (list_to_map
       [(of_string "ts", VStr ts);
        (of_string "phase_label", VStr phase);
        (of_string "host", VStr host);
        (of_string "traceroute_snip", VStr snip);
        (of_string "speedtest_down_mbps", st_value st (fun d => of_measure (down_mbps d)));
        (of_string "speedtest_up_mbps", st_value st (fun d => of_measure (up_mbps d)));
        (of_string "speedtest_ping_ms", st_value st (fun d => of_measure (ping_ms d)));
        (of_string "speedtest_raw_json", st_value st (fun d => VStr (raw_json d)))]).

(** [p.open("a")]: the file is created when missing and kept otherwise. *)
Definition open_a (p : Fs.path) (s : Fs.fs) : result Fs.fs :=
  if negb (Fs.is_dir s (Fs.parent p)) then Raise FileNotFoundError
  else match p, s !! p with
       | [], _ | _, Some Fs.Dir => Raise OSError
       | _, Some (Fs.File _) => Ok s
       | _, None => Ok (<[p := Fs.File []]> s)
       end.

Section Main.

Variable float_sqrt : Q -> Q.
Variable json_loads : pystr -> result json.
Variable float_of_str : pystr -> result Q.

(** [repr] of a float, from the Python library. *)
Variable repr_float : Q -> pystr.

(** What the csv writer makes of a value: a str as it is, None as the
    empty string, anything else through [str]. *)
Definition text_of (v : value) : pystr :=
  match v with
  | VStr s => s
  | VInt n => str_of_int n
  | VFloat x => repr_float x
  | VNone => []
  end.

(** [csv.DictWriter(f, fieldnames=FIELDNAMES).writerow(row)]: a key
    outside the field names is a ValueError; a missing one is written as
    the empty string. *)
Definition dict_writerow (row : gmap pystr value) : result pystr :=
  if forallb (fun k => existsb (eqb_str k) FIELDNAMES) (map fst (map_to_list row))
  then Ok (Csv.writerow
             (map (fun k => text_of (default (VStr []) (row !! k))) FIELDNAMES))
  else Raise ValueError.

(** The body of the loop over the targets, up to the row. *)
Definition build_row (w : world) (ts phase : pystr) (do_tr : bool)
    (st : option speedtest) (host : pystr) : result (gmap pystr value) :=
  let* snip := if do_tr then traceroute_snip w host else Ok [] in
  let* stats := ping_target float_sqrt w host PING_COUNT in
  Ok (row_of ts phase host snip st stats).

(** The loop over the targets on the day file opened for appending: the
    file system when the loop is left, and the exception that left it. *)
Fixpoint write_rows (w : world) (ts phase : pystr) (do_tr : bool)
    (st : option speedtest) (dayfile : Fs.path) (hosts : list pystr)
    (s : Fs.fs) : Fs.fs * option exn :=
  match hosts with
  | [] => (s, None)
  | host :: hosts' =>
      match (let* row := build_row w ts phase do_tr st host in
             let* line := dict_writerow row in
             Fs.write dayfile line s) with
      | Ok s' => write_rows w ts phase do_tr st dayfile hosts' s'
      | Raise e => (s, Some e)
      end
  end.

Definition dayfile_of (now : clock) : Fs.path :=
  OUTDIR ++ [of_string "bakeoff_" ++ yyyymmdd now ++ of_string ".csv"].

(** [main]. [Raise e]: an exception before the loop over the targets,
    when no row has been written; [Ok (s', e)]: the loop was entered and
    left with the file system [s'], by the exception [e] if there is
    one. *)
Definition main (w : world) (env : environ) (now : clock) (s : Fs.fs)
  : result (Fs.fs * option exn) :=
  let* phase := read_phase env s in
  let ts := isoformat now in
  let dayfile := dayfile_of now in
  let* s1 := ensure_csv dayfile s in
  let bucket := minute_bucket (hour now) (minute now) in
  let do_tr := due bucket TRACEROUTE_EVERY_MIN in
  let do_st := due bucket SPEEDTEST_EVERY_MIN in
  let* st := if do_st then run_ookla_speedtest json_loads float_of_str w
             else Ok None in
  let* s2 := open_a dayfile s1 in
  Ok (write_rows w ts phase do_tr st dayfile TARGETS s2).

End Main.

End Run.

(* ===================================================================== *)
(** * The vocabulary of the further properties *)
(* ===================================================================== *)

Module Shape.
Import Py Num.

(** The shape of a reply line of ping:
    ... time=<digits and dots><blanks>ms ... *)
Definition reply_shape (line g : pystr) : Prop :=
  exists pre ws post,
    line = pre ++ of_string "time=" ++ g ++ ws ++ of_string "ms" ++ post
    /\ g <> []
    /\ forallb Collector.is_digit_or_dot g = true
    /\ forallb isspace ws = true.

(** The linear interpolation between the elements of [v] around the
    real index [idx]. *)
Definition at_index (v : list Q) (idx : Q) : Q :=
  (nth (Z.to_nat (Qfloor idx)) v 0 * (1 - (idx - inject_Z (Qfloor idx)))
   + nth (Z.to_nat (Qceiling idx)) v 0 * (idx - inject_Z (Qfloor idx)))%Q.

(** The steps that [Transform.main] is made of: the making of
    directories, and what is done to the temporary and to the published
    file. *)
Definition snapshot_step (st : Transform.step) : bool :=
  match st with
  | Transform.MkdirParents _ => true
  | Transform.OpenW p | Transform.WriteText p _ =>
      bool_decide (p = Transform.TMP)
  | Transform.Replace src dst =>
      bool_decide (src = Transform.TMP) && bool_decide (dst = Transform.OUT)
  end.

(** The fields of the record of one target, in the order of
    [Collector.FIELDNAMES]. *)
Definition record (repr_float : Q -> pystr) (ts phase host snip : pystr)
    (st : option Collector.speedtest) (stats : Collector.ping_stats)
  : list pystr :=
  map (Run.text_of repr_float)
    [Run.VStr ts;
     Run.VStr phase;
     Run.VStr host;
     Run.VInt (Collector.sent stats);
     Run.VInt (Collector.received stats);
     Run.VFloat (Collector.loss_pct stats);
     Run.of_cell (Collector.avg_ms stats);
     Run.of_cell (Collector.p50_ms stats);
     Run.of_cell (Collector.p95_ms stats);
     Run.of_cell (Collector.max_ms stats);
     Run.of_cell (Collector.jitter_ms stats);
     Run.VStr snip;
     Run.st_value st (fun d => Run.of_measure (Collector.down_mbps d));
     Run.st_value st (fun d => Run.of_measure (Collector.up_mbps d));
     Run.st_value st (fun d => Run.of_measure (Collector.ping_ms d));
     Run.st_value st (fun d => Run.VStr (Collector.raw_json d))].

(** What one pass of the loop of [Run.main] leaves behind: the host, the
    route snip and the latency statistics of its record. *)
Abbreviation pass := (pystr * pystr * Collector.ping_stats)%type.

(** The text that the passes append to the day file. *)
Definition appended (repr_float : Q -> pystr) (ts phase : pystr)
    (st : option Collector.speedtest) (passes : list pass) : pystr :=
  concat (map (fun x : pass =>
                 Csv.writerow (record repr_float ts phase x.1.1 x.1.2 st x.2))
            passes).

(** The paths from the root down to [p], [p] included. *)
Definition ancestors (p : Fs.path) : list Fs.path :=
  map (fun n => take n p) (seq 1 (length p)).

End Shape.

(* ===================================================================== *)
(** * Runs of the collector *)
(* ===================================================================== *)

Module Runs.
Import Py Num Collector.

(** The text of a float with at most three decimals, in the place of
    [repr]: 2 is 2.0, 1.5 is 1.5, 33.333 is 33.333. *)
Definition repr3 (x : Q) : pystr :=
  let n := round_half_even (x * 1000) in
  let a := Z.abs n in
  let f := a mod 1000 in
  (if n <? 0 then of_string "-" else [])
  ++ str_of_int (a / 1000) ++ of_string "."
  ++ (if f mod 100 =? 0 then str_of_int (f / 100)
      else if f mod 10 =? 0
           then str_of_int (f / 100) ++ str_of_int (f / 10 mod 10)
           else str_of_int (f / 100) ++ str_of_int (f / 10 mod 10)
                ++ str_of_int (f mod 10)).

(** A host without speedtest, on which ping hears two replies and
    traceroute sees one hop. *)
Definition lan : world :=
  {| spawn := fun cmd _ =>
       match cmd with
       | prog :: _ =>
           if eqb_str prog (of_string "/sbin/ping")
           then Examples.exited 0 Examples.two_replies
           else if eqb_str prog (of_string "/usr/sbin/traceroute")
                then Examples.exited 0 Examples.hop_with_tab
                else NoSuchFile
       | [] => NoSuchFile
       end;
     which := fun _ => None |}.

(** The same host when traceroute hangs and speedtest is installed and
    hangs. *)
Definition lan_hanging : world :=
  {| spawn := fun cmd _ =>
       match cmd with
       | prog :: _ =>
           if eqb_str prog (of_string "/sbin/ping")
           then Examples.exited 0 Examples.two_replies
           else TimedOut
       | [] => NoSuchFile
       end;
     which := fun _ => Some (of_string "/usr/local/bin/speedtest") |}.

(** 10:07 on 11 February 2026. *)
Definition at_1007 : Run.clock :=
  {| Run.hour := 10;
     Run.minute := 7;
     Run.isoformat := of_string "2026-02-11T10:07:00-06:00";
     Run.yyyymmdd := of_string "20260211" |}.

(** 10:15 on the same day. *)
Definition at_1015 : Run.clock :=
  {| Run.hour := 10;
     Run.minute := 15;
     Run.isoformat := of_string "2026-02-11T10:15:00-06:00";
     Run.yyyymmdd := of_string "20260211" |}.

Definition no_json (s : pystr) : result json := Raise JSONDecodeError.

(** The collector on [w] at [now], on the disk [s], with no PHASE. *)
Definition collect (w : world) (now : Run.clock) (s : Fs.fs)
  : result (Fs.fs * option exn) :=
  Run.main Examples.sqrt12 no_json Examples.no_float repr3 w ∅ now s.

End Runs.

(* ===================================================================== *)
(** * Properties *)
(* ===================================================================== *)

Import Py Num Spec.

(** ** Lines, joins and stripping *)

Section Strings.

Lemma splitlines_cons_line c rest :
  is_linebreak c = false ->
  splitlines (c :: rest) =
    match splitlines rest with [] => [[c]] | l :: ls => (c :: l) :: ls end.
Proof. intros H. simpl. now rewrite H. Qed.

Lemma splitlines_lines_no_break_len n :
  forall s, (length s <= n)%nat -> Forall no_break (splitlines s).
Proof.
  induction n as [|n IH]; intros [|c rest] Hlen; simpl in *;
    try constructor; try lia.
  destruct (is_linebreak c) eqn:Hc.
  - constructor; [constructor|].
    destruct rest as [|c' rest']; [constructor|].
    destruct ((c =? CR)%N && (c' =? LF)%N); apply IH; simpl in *; lia.
  - assert (Hrest : Forall no_break (splitlines rest)) by (apply IH; lia).
    destruct (splitlines rest) as [|l ls]; [repeat constructor; assumption|].
    inversion Hrest; subst. constructor; [constructor|]; assumption.
Qed.

Lemma splitlines_lines_no_break s : Forall no_break (splitlines s).
Proof. now apply (splitlines_lines_no_break_len (length s)). Qed.

Lemma splitlines_of_line s :
  no_break s -> splitlines s = match s with [] => [] | _ :: _ => [s] end.
Proof.
  induction 1 as [|c rest Hc Hrest IH]; [reflexivity|].
  rewrite splitlines_cons_line by assumption. rewrite IH.
  now destruct rest.
Qed.

Lemma join_Forall (P : codepoint -> Prop) sep parts :
  Forall P sep -> Forall (Forall P) parts -> Forall P (join sep parts).
Proof.
  intros Hsep. induction 1 as [|p ps Hp Hps IH]; simpl; [constructor|].
  destruct ps as [|p' ps']; [assumption|].
  apply Forall_app; split; [assumption|].
  apply Forall_app; split; assumption.
Qed.

Lemma lstrip_Forall (P : codepoint -> Prop) s : Forall P s -> Forall P (lstrip s).
Proof.
  induction 1 as [|c s Hc Hs IH]; simpl; [constructor|].
  destruct (isspace c); [assumption | now constructor].
Qed.

Lemma rstrip_Forall (P : codepoint -> Prop) s : Forall P s -> Forall P (rstrip s).
Proof.
  intros H. unfold rstrip. apply Forall_rev, lstrip_Forall, Forall_rev, H.
Qed.

Lemma strip_Forall (P : codepoint -> Prop) s : Forall P s -> Forall P (strip s).
Proof. intros H. apply rstrip_Forall, lstrip_Forall, H. Qed.

Lemma replace_tab_no_tab s : no_tab (replace_char TAB SPACE s).
Proof.
  induction s as [|c s IH]; simpl; constructor; [|exact IH].
  destruct (c =? TAB)%N eqn:E; [discriminate|].
  now apply N.eqb_neq.
Qed.

Lemma replace_tab_no_break s : no_break s -> no_break (replace_char TAB SPACE s).
Proof.
  induction 1 as [|c s Hc Hs IH]; simpl; constructor; [|exact IH].
  now destruct (c =? TAB)%N.
Qed.

Lemma replace_char_absent old new s :
  Forall (fun c => c <> old) s -> replace_char old new s = s.
Proof.
  induction 1 as [|c s Hc Hs IH]; simpl; [reflexivity|].
  apply N.eqb_neq in Hc. now rewrite Hc, IH.
Qed.

(** Stripping twice *)
Lemma lstrip_idem s : lstrip (lstrip s) = lstrip s.
Proof.
  induction s as [|c s IH]; simpl; [reflexivity|].
  destruct (isspace c) eqn:E; [exact IH|]. simpl. now rewrite E.
Qed.

Lemma rstrip_idem s : rstrip (rstrip s) = rstrip s.
Proof. unfold rstrip. now rewrite rev_involutive, lstrip_idem. Qed.

Lemma lstrip_app_nonspace s c : isspace c = false -> lstrip (s ++ [c]) = lstrip s ++ [c].
Proof.
  intros Hc. induction s as [|d s IH]; simpl; [now rewrite Hc|].
  destruct (isspace d); [exact IH | reflexivity].
Qed.

Lemma rstrip_cons_nonspace c s : isspace c = false -> rstrip (c :: s) = c :: rstrip s.
Proof.
  intros Hc. unfold rstrip. simpl.
  rewrite lstrip_app_nonspace by assumption.
  now rewrite rev_app_distr.
Qed.

Lemma lstrip_rstrip_lstrip s : lstrip (rstrip (lstrip s)) = rstrip (lstrip s).
Proof.
  induction s as [|c s IH]; simpl; [reflexivity|].
  destruct (isspace c) eqn:E; [exact IH|].
  rewrite rstrip_cons_nonspace by assumption. simpl. now rewrite E.
Qed.

Lemma strip_idem s : strip (strip s) = strip s.
Proof.
  unfold strip. now rewrite lstrip_rstrip_lstrip, rstrip_idem.
Qed.

Lemma join_singleton sep s : join sep [s] = s.
Proof. reflexivity. Qed.

Lemma SEP_no_break : no_break Transform.SEP.
Proof. repeat constructor. Qed.

Lemma sanitize_no_break (s : option pystr) : no_break (Transform.sanitize_field s).
Proof.
  destruct s as [s|]; simpl; [|constructor].
  apply strip_Forall, replace_tab_no_break, join_Forall.
  - exact SEP_no_break.
  - apply splitlines_lines_no_break.
Qed.

Lemma sanitize_no_tab (s : option pystr) : no_tab (Transform.sanitize_field s).
Proof.
  destruct s as [s|]; simpl; [|constructor].
  apply strip_Forall, replace_tab_no_tab.
Qed.

Lemma sanitize_stripped (s : option pystr) :
  strip (Transform.sanitize_field s) = Transform.sanitize_field s.
Proof. destruct s as [s|]; simpl; [apply strip_idem | reflexivity]. Qed.




End Strings.

(** ** The csv reader undoes the csv writer *)

Lemma special_false (c : codepoint) :
  Csv.special c = false ->
  Csv.is_eol c = false /\ (c =? DQUOTE)%N = false /\ (c =? COMMA)%N = false.
Proof.
  unfold Csv.special, Csv.is_eol. intros H.
  destruct (c =? COMMA)%N, (c =? DQUOTE)%N, (c =? CR)%N, (c =? LF)%N;
    simpl in *; auto; discriminate.
Qed.

Lemma read_plain (g field : pystr) (row : list pystr) (k : pystr) :
  existsb Csv.special g = false ->
  Csv.read_row Csv.InField field row (g ++ k) = Csv.read_row Csv.InField (field ++ g) row k.
Proof.
  revert field. induction g as [|c g IH]; intros field H; simpl in *.
  - now rewrite app_nil_r.
  - apply orb_false_iff in H. destruct H as [Hc Hg].
    destruct (special_false c Hc) as (He & Hq & Hd).
    rewrite He, Hd, IH by exact Hg. now rewrite <- app_assoc.
Qed.

Lemma read_quoted (g field : pystr) (row : list pystr) (k : pystr) :
  Csv.read_row Csv.InQuoted field row (Csv.escape g ++ DQUOTE :: k)
  = Csv.read_row Csv.QuoteInQuoted (field ++ g) row k.
Proof.
  revert field. induction g as [|c g IH]; intros field; simpl.
  - now rewrite app_nil_r.
  - destruct (c =? DQUOTE)%N eqn:E; simpl.
    + apply N.eqb_eq in E. subst c. simpl. rewrite IH. now rewrite <- app_assoc.
    + rewrite E, IH. now rewrite <- app_assoc.
Qed.

Lemma read_field_comma (st : Csv.rstate) (f : pystr) (row : list pystr) (rest : pystr) :
  Csv.at_start st ->
  Csv.read_row st [] row (Csv.render_field f ++ COMMA :: rest)
  = Csv.read_row Csv.StartField [] (row ++ [f]) rest.
Proof.
  intros Hst. unfold Csv.render_field.
  destruct (existsb Csv.special f) eqn:Hq.
  - cbn [app]. rewrite <- app_assoc. cbn [app].
    assert (H : Csv.read_row st [] row (DQUOTE :: Csv.escape f ++ DQUOTE :: COMMA :: rest)
                = Csv.read_row Csv.InQuoted [] row (Csv.escape f ++ DQUOTE :: COMMA :: rest))
      by (destruct Hst as [-> | ->]; reflexivity).
    rewrite H, read_quoted. reflexivity.
  - destruct f as [|c f]; [destruct Hst as [-> | ->]; reflexivity|].
    simpl in Hq. apply orb_false_iff in Hq. destruct Hq as [Hc Hf].
    destruct (special_false c Hc) as (He & Hd & Hco).
    assert (H : Csv.read_row st [] row ((c :: f) ++ COMMA :: rest)
                = Csv.read_row Csv.InField [c] row (f ++ COMMA :: rest)).
    { destruct Hst as [-> | ->]; simpl; now rewrite He, Hd, Hco. }
    rewrite H, read_plain by exact Hf. reflexivity.
Qed.

Lemma read_field_end (st : Csv.rstate) (f : pystr) (row : list pystr) :
  Csv.at_start st -> (st = Csv.StartField \/ f <> []) ->
  Csv.read_row st [] row (Csv.render_field f ++ [CR; LF]) = row ++ [f].
Proof.
  intros Hst Hne. unfold Csv.render_field.
  destruct (existsb Csv.special f) eqn:Hq.
  - cbn [app]. rewrite <- app_assoc. cbn [app].
    assert (H : Csv.read_row st [] row (DQUOTE :: Csv.escape f ++ [DQUOTE; CR; LF])
                = Csv.read_row Csv.InQuoted [] row (Csv.escape f ++ [DQUOTE; CR; LF]))
      by (destruct Hst as [-> | ->]; reflexivity).
    rewrite H, read_quoted. reflexivity.
  - destruct f as [|c f].
    + destruct Hne as [-> | Hne]; [reflexivity | congruence].
    + simpl in Hq. apply orb_false_iff in Hq. destruct Hq as [Hc Hf].
      destruct (special_false c Hc) as (He & Hd & Hco).
      assert (H : Csv.read_row st [] row ((c :: f) ++ [CR; LF])
                  = Csv.read_row Csv.InField [c] row (f ++ [CR; LF])).
      { destruct Hst as [-> | ->]; simpl; now rewrite He, Hd, Hco. }
      rewrite H, read_plain by exact Hf. reflexivity.
Qed.

Lemma read_fields (st : Csv.rstate) (f : pystr) (fs row : list pystr) :
  Csv.at_start st -> (st = Csv.StartField \/ f <> [] \/ fs <> []) ->
  Csv.read_row st [] row (join [COMMA] (map Csv.render_field (f :: fs)) ++ [CR; LF])
  = row ++ f :: fs.
Proof.
  revert st f row. induction fs as [|f' fs IH]; intros st f row Hst Hne.
  - simpl. apply read_field_end; [exact Hst|]. destruct Hne as [H|[H|H]]; auto; congruence.
  - change (join [COMMA] (map Csv.render_field (f :: f' :: fs)))
      with (Csv.render_field f ++ [COMMA] ++ join [COMMA] (map Csv.render_field (f' :: fs))).
    rewrite <- !app_assoc. cbn [app].
    rewrite read_field_comma by exact Hst.
    rewrite IH; [| right; reflexivity | left; reflexivity].
    now rewrite <- app_assoc.
Qed.

Lemma reader_writerow (fields : list pystr) : Csv.reader (Csv.writerow fields) = fields.
Proof.
  unfold Csv.reader, Csv.writerow.
  destruct fields as [|f fs]; [reflexivity|].
  destruct f as [|c f]; [destruct fs as [|f' fs]; [reflexivity|]|].
  - apply (read_fields Csv.StartRecord [] (f' :: fs) []); [left; reflexivity|].
    right; right; discriminate.
  - apply (read_fields Csv.StartRecord (c :: f) fs []); [left; reflexivity|].
    right; left; discriminate.
Qed.

(** ** Sanitization of the free-text fields (C8, C10) *)





(** ** Order statistics, rounding and loss *)

Lemma insert_sorted_length x l : length (insert_sorted x l) = S (length l).
Proof.
  induction l as [|y l IH]; simpl; [reflexivity|].
  destruct (Qle_bool x y); simpl; [reflexivity | now rewrite IH].
Qed.

Lemma sorted_length l : length (sorted l) = length l.
Proof.
  induction l as [|x l IH]; simpl; [reflexivity|].
  now rewrite insert_sorted_length, IH.
Qed.

Lemma insert_sorted_perm x l : Permutation (insert_sorted x l) (x :: l).
Proof.
  induction l as [|y l IH]; simpl; [reflexivity|].
  destruct (Qle_bool x y); [reflexivity|].
  rewrite IH. apply perm_swap.
Qed.

Lemma sorted_perm l : Permutation (sorted l) l.
Proof.
  induction l as [|x l IH]; simpl; [reflexivity|].
  now rewrite insert_sorted_perm, IH.
Qed.

Lemma insert_sorted_Sorted x l : Sorted Qle l -> Sorted Qle (insert_sorted x l).
Proof.
  induction 1 as [|y l Hl IH Hy]; simpl; [repeat constructor|].
  destruct (Qle_bool x y) eqn:E.
  - apply Qle_bool_iff in E. repeat constructor; assumption.
  - assert (Hyx : (y <= x)%Q).
    { apply Qlt_le_weak, Qnot_le_lt. intros H. apply Qle_bool_iff in H. congruence. }
    constructor; [exact IH|].
    destruct l as [|z l]; simpl; [now constructor|].
    destruct (Qle_bool x z); constructor; [assumption|].
    now inversion Hy.
Qed.

Lemma sorted_Sorted l : Sorted Qle (sorted l).
Proof.
  induction l as [|x l IH]; simpl; [constructor|].
  now apply insert_sorted_Sorted.
Qed.

Lemma trunc_nonneg x : (0 <= x)%Q -> trunc x = Qfloor x.
Proof.
  destruct x as [n d]. unfold Qle, trunc, Qfloor. simpl. intros H.
  apply Z.quot_div_nonneg; lia.
Qed.

Lemma getitem_in_range v i :
  0 <= i < len v -> Collector.getitem v i = Ok (nth (Z.to_nat i) v 0%Q).
Proof.
  intros [H0 Hn]. unfold Collector.getitem.
  destruct (i <? 0) eqn:E; [apply Z.ltb_lt in E; lia|]. rewrite E.
  unfold len in Hn.
  destruct (v !! Z.to_nat i) as [x|] eqn:Hx.
  - f_equal. symmetry. apply nth_lookup_Some with (d := 0%Q) in Hx. exact Hx.
  - apply lookup_ge_None in Hx. lia.
Qed.

Lemma quantile_refines values q :
  values <> [] -> (0 <= q <= 1)%Q ->
  exists r, Collector.quantile values q = Ok (Some r) /\ (r == percentile_spec values q)%Q.
Proof.
  intros Hne [Hq0 Hq1].
  destruct values as [|x0 xs]; [congruence|].
  unfold Collector.quantile, percentile_spec.
  set (v := sorted (x0 :: xs)).
  assert (Hlen : 1 <= len v).
  { unfold len, v. rewrite sorted_length. simpl. lia. }
  set (n1 := len v - 1) in *.
  set (idx := (inject_Z n1 * q)%Q).
  assert (Hn1 : (0 <= inject_Z n1)%Q) by (rewrite <- (Zle_Qle 0); lia).
  assert (Hidx0 : (0 <= idx)%Q) by (unfold idx; nra).
  assert (Hidx1 : (idx <= inject_Z n1)%Q) by (unfold idx; nra).
  rewrite (trunc_nonneg idx Hidx0).
  set (lo := Qfloor idx).
  assert (Hlo0 : 0 <= lo).
  { unfold lo. rewrite <- (Qfloor_Z 0). now apply Qfloor_resp_le. }
  assert (Hlo1 : lo <= n1).
  { unfold lo. rewrite <- (Qfloor_Z n1). now apply Qfloor_resp_le. }
  pose proof (Qfloor_le idx) as Hfl. fold lo in Hfl.
  pose proof (Qlt_floor idx) as Hfu. fold lo in Hfu.
  pose proof (Qle_ceiling idx) as Hcl.
  pose proof (Qceiling_lt idx) as Hcu.
  destruct (Z.min (lo + 1) n1 =? lo) eqn:Ehi.
  - apply Z.eqb_eq in Ehi. assert (Hlo : lo = n1) by lia.
    rewrite getitem_in_range by (unfold n1 in *; lia). simpl.
    eexists; split; [reflexivity|].
    assert (Hidx : (idx == inject_Z lo)%Q) by (apply Qle_antisym; [rewrite Hlo|]; assumption).
    assert (Hce : Qceiling idx = lo) by (rewrite Hidx; apply Qceiling_Z).
    rewrite Hce. rewrite Hidx. ring.
  - apply Z.eqb_neq in Ehi. assert (Hlo : lo < n1) by lia.
    replace (Z.min (lo + 1) n1) with (lo + 1) by lia.
    rewrite !getitem_in_range by (unfold n1 in *; lia). simpl.
    eexists; split; [reflexivity|].
    destruct (Qeq_dec idx (inject_Z lo)) as [Hidx|Hidx].
    + assert (Hce : Qceiling idx = lo) by (rewrite Hidx; apply Qceiling_Z).
      rewrite Hce. rewrite Hidx. ring.
    + assert (Hce : Qceiling idx = lo + 1).
      { assert (inject_Z lo < idx)%Q.
        { apply Qle_lteq in Hfl. destruct Hfl as [H|H]; [exact H|]. now symmetry in H. }
        assert (lo < Qceiling idx).
        { rewrite Zlt_Qlt. eapply Qlt_le_trans; eassumption. }
        assert (Qceiling idx - 1 < lo + 1).
        { rewrite Zlt_Qlt. eapply Qlt_trans; eassumption. }
        lia. }
      rewrite Hce. reflexivity.
Qed.



Lemma parse_lines_length lines times :
  Collector.parse_lines lines = Ok times ->
  length times = length (List.filter is_reply lines).
Proof.
  revert times. induction lines as [|line lines IH]; simpl; intros times H.
  - now inversion H.
  - unfold is_reply. destruct (Collector.PING_RE_search line) as [g|]; [|now apply IH].
    destruct (Collector.float_of_token g) as [t|e]; simpl in H; [|discriminate].
    destruct (Collector.parse_lines lines) as [ts|e]; simpl in H; [|discriminate].
    inversion H; subst. simpl. f_equal. now apply IH.
Qed.

Lemma quantile_total x xs q :
  (0 <= q <= 1)%Q -> exists r, Collector.quantile (x :: xs) q = Ok (Some r).
Proof.
  intros Hq. destruct (quantile_refines (x :: xs) q) as (r & Hr & _);
    [discriminate | exact Hq | eauto].
Qed.


Section LatencyFacts.
Variable float_sqrt : Q -> Q.

End LatencyFacts.


Lemma ping_target_exited (float_sqrt : Q -> Q) (w : Collector.world)
    (host : pystr) (count : Z) (p : Collector.CompletedProcess) (times : list Q) :
  Collector.spawn w (Collector.ping_args host count) 8 = Collector.Exited p ->
  Collector.parse_ping_times_ms (Collector.stdout p) = Ok times ->
  Collector.ping_target float_sqrt w host count
  = Collector.ping_stats_of float_sqrt times count.
Proof.
  intros Hrun Hparse. unfold Collector.ping_target, Collector.run.
  rewrite Hrun. cbn [bind]. rewrite Hparse. reflexivity.
Qed.


(** ** The percentile (C6) *)

(** C6. On a non-empty list of samples and a quantile q between 0 and
    1, [quantile] sorts the samples ascending, takes the real index
    (n-1)q and interpolates linearly between the two order statistics
    around it by its fractional part; one sample is returned as it is;
    the median of 10, 20, 30 is 20 and that of 10, 20 is 15. *)
Theorem quantile_interpolates (values : list Q) (q : Q) :
  values <> [] -> (0 <= q <= 1)%Q ->
  Sorted Qle (sorted values)
  /\ Permutation (sorted values) values
  /\ (exists r, Collector.quantile values q = Ok (Some r)
                /\ (r == percentile_spec values q)%Q)
  /\ (forall x, values = [x] -> Collector.quantile values q = Ok (Some x))
  /\ (exists r, Collector.quantile [10; 20; 30]%Q (1 # 2) = Ok (Some r)
                /\ (r == 20)%Q)
  /\ (exists r, Collector.quantile [10; 20]%Q (1 # 2) = Ok (Some r)
                /\ (r == 15)%Q).
Proof.
  intros Hne Hq.
  split; [apply sorted_Sorted|].
  split; [apply sorted_perm|].
  split; [now apply quantile_refines|].
  split.
  - intros x ->. destruct q as [n d]. reflexivity.
  - split; eexists; (split; [vm_compute; reflexivity | reflexivity]).
Qed.

(** C6 on the samples 30, 10, 20 and the quantile 0.95. *)
Lemma quantile_interpolates_witness :
  exists r, Collector.quantile [30; 10; 20]%Q (95 # 100) = Ok (Some r)
            /\ (r == percentile_spec [30; 10; 20]%Q (95 # 100))%Q.
Proof.
  apply (quantile_interpolates [30; 10; 20]%Q (95 # 100)).
  - discriminate.
  - split; discriminate.
Defined.

(** ** Loss and the counts of a latency probe (C4) *)




(** ** Jitter and the blank fields (C2) *)




(** ** What the adapters do with a failing child (C1, C3) *)


Section Adapters.

Variable float_sqrt : Q -> Q.
Variable json_loads : pystr -> result Collector.json.
Variable float_of_str : pystr -> result Q.









End Adapters.







(** ** Directories and files *)

Lemma mkdir_from_frame (base : Fs.path) (rest : list pystr) (s s' : Fs.fs) (q : Fs.path) :
  Fs.mkdir_from base rest s = Ok s' ->
  (length base + length rest < length q)%nat ->
  s' !! q = s !! q.
Proof.
  revert base s. induction rest as [|c rest IH]; simpl; intros base s H Hlen.
  - now inversion H.
  - assert (Hne : base ++ [c] <> q).
    { intros <-. rewrite length_app in Hlen. simpl in Hlen. lia. }
    destruct (s !! (base ++ [c])) as [[|content]|] eqn:E; [| discriminate |].
    + apply IH in H; [exact H|]. rewrite length_app. simpl. lia.
    + apply IH in H; [|rewrite length_app; simpl; lia].
      rewrite H. now apply lookup_insert_ne.
Qed.

Lemma mkdir_from_dir (base : Fs.path) (rest : list pystr) (s s' : Fs.fs) :
  Fs.mkdir_from base rest s = Ok s' ->
  rest <> [] ->
  s' !! (base ++ rest) = Some Fs.Dir.
Proof.
  revert base s. induction rest as [|c rest IH]; simpl; intros base s H Hne;
    [congruence|].
  destruct rest as [|c' rest'].
  - destruct (s !! (base ++ [c])) as [[|content]|] eqn:E; simpl in H;
      inversion H; subst; [exact E | apply lookup_insert_eq].
  - replace (base ++ c :: c' :: rest') with ((base ++ [c]) ++ c' :: rest')
      by now rewrite <- app_assoc.
    destruct (s !! (base ++ [c])) as [[|content]|] eqn:E; [| discriminate |];
      (eapply IH; [exact H | discriminate]).
Qed.

Lemma clear_way_ext (s1 s2 : Fs.fs) (base : Fs.path) (rest : list pystr) :
  (forall q : Fs.path, (length base < length q)%nat -> s1 !! q = s2 !! q) ->
  clear_way s1 base rest = clear_way s2 base rest.
Proof.
  revert base. induction rest as [|c rest IH]; simpl; intros base H; [reflexivity|].
  rewrite H by (rewrite length_app; simpl; lia).
  rewrite IH; [reflexivity|].
  intros q Hq. apply H. rewrite length_app in Hq. simpl in Hq. lia.
Qed.

Lemma mkdir_from_total (base : Fs.path) (rest : list pystr) (s : Fs.fs) :
  clear_way s base rest = true -> exists s', Fs.mkdir_from base rest s = Ok s'.
Proof.
  revert base s. induction rest as [|c rest IH]; simpl; intros base s Hway;
    [eauto|].
  destruct (s !! (base ++ [c])) as [[|content]|] eqn:E; [| discriminate |].
  - now apply IH.
  - apply IH. rewrite <- Hway. apply clear_way_ext.
    intros q Hq. apply lookup_insert_ne. intros <-. lia.
Qed.

Lemma parent_length (p : Fs.path) : p <> [] -> length p = S (length (Fs.parent p)).
Proof.
  intros Hp. destruct (exists_last Hp) as (l & a & ->).
  unfold Fs.parent. rewrite removelast_last, length_app. simpl. lia.
Qed.

Lemma ensure_csv_existing (p : Fs.path) (s : Fs.fs) :
  Fs.path_exists s p = true -> Collector.ensure_csv p s = Ok s.
Proof. intros H. unfold Collector.ensure_csv. now rewrite H. Qed.

Lemma ensure_csv_fresh (p : Fs.path) (s : Fs.fs) :
  Fs.path_exists s p = false ->
  clear_way s [] (Fs.parent p) = true ->
  exists s', Collector.ensure_csv p s = Ok s' /\ s' !! p = Some (Fs.File header)
    /\ Fs.path_exists s' p = true.
Proof.
  intros Hex Hway. unfold Collector.ensure_csv. rewrite Hex. simpl.
  assert (Hp : p <> []) by (intros ->; discriminate).
  assert (Hnone : s !! p = None).
  { destruct p as [|c0 p0]; [congruence|]. simpl in Hex.
    now destruct (s !! (c0 :: p0)). }
  destruct (mkdir_from_total [] (Fs.parent p) s Hway) as [s1 Hs1].
  unfold Fs.mkdir_parents. rewrite Hs1. simpl.
  assert (Hp1 : s1 !! p = None).
  { rewrite (mkdir_from_frame _ _ _ _ p Hs1); [exact Hnone|].
    rewrite (parent_length p Hp). simpl. lia. }
  assert (Hdir : Fs.is_dir s1 (Fs.parent p) = true).
  { unfold Fs.is_dir. destruct (Fs.parent p) as [|d ds] eqn:Epar; [reflexivity|].
    apply mkdir_from_dir in Hs1; [|discriminate]. simpl in Hs1. now rewrite Hs1. }
  unfold Fs.open_w. rewrite Hdir. cbn [negb bind].
  destruct p as [|c0 p0] eqn:Ep; [congruence|]. rewrite <- Ep in *.
  rewrite Hp1. cbn [bind].
  unfold Fs.write. rewrite lookup_insert_eq.
  eexists; split; [reflexivity|]. rewrite insert_insert_eq.
  split; [apply lookup_insert_eq|].
  rewrite Ep. simpl. now rewrite lookup_insert_eq.
Qed.

(** ** The steps of the transform on the file system *)

Import Transform.

Lemma exec_safe (st : step) (s s' : Fs.fs) :
  safe st = true -> exec st s = Ok s' -> s' !! OUT = s !! OUT.
Proof.
  destruct st as [d|p|p text|src dst]; simpl; intros Hsafe H.
  - apply Nat.ltb_lt in Hsafe.
    eapply mkdir_from_frame; [exact H|]. simpl. exact Hsafe.
  - apply negb_true_iff, bool_decide_eq_false in Hsafe.
    unfold Fs.open_w in H. destruct (negb _); [discriminate|].
    destruct p as [|c p]; [discriminate|].
    destruct (s !! (c :: p)) as [[|content]|]; inversion H; subst;
      now apply lookup_insert_ne.
  - apply negb_true_iff, bool_decide_eq_false in Hsafe.
    unfold Fs.write in H.
    destruct (s !! p) as [[|content]|]; inversion H; subst.
    now apply lookup_insert_ne.
  - apply andb_true_iff in Hsafe. destruct Hsafe as [H1 H2].
    apply negb_true_iff, bool_decide_eq_false in H1.
    apply negb_true_iff, bool_decide_eq_false in H2.
    unfold Fs.replace in H.
    destruct (s !! src) as [[|content]|]; try discriminate.
    destruct (s !! dst) as [[|content']|]; inversion H; subst;
      (rewrite lookup_insert_ne by assumption; now apply lookup_delete_ne).
Qed.

Lemma exec_all_safe (sts : list step) (s : Fs.fs) :
  forallb safe sts = true -> (exec_all sts s).1 !! OUT = s !! OUT.
Proof.
  revert s. induction sts as [|st sts IH]; simpl; intros s H; [reflexivity|].
  apply andb_true_iff in H. destruct H as [Hst Hsts].
  destruct (exec st s) as [s'|e] eqn:E; [|reflexivity].
  rewrite IH by assumption. now apply (exec_safe st).
Qed.

Lemma exec_all_app (a b : list step) (s : Fs.fs) :
  exec_all (a ++ b) s =
    match exec_all a s with
    | (s', None) => exec_all b s'
    | (s', Some e) => (s', Some e)
    end.
Proof.
  revert s. induction a as [|st a IH]; simpl; intros s; [reflexivity|].
  destruct (exec st s); [apply IH | reflexivity].
Qed.

Lemma exec_all_writes (texts : list pystr) (p : Fs.path) (c : pystr) (s : Fs.fs) :
  s !! p = Some (Fs.File c) ->
  exec_all (map (WriteText p) texts) s = (<[p := Fs.File (c ++ concat texts)]> s, None).
Proof.
  revert c s. induction texts as [|t texts IH]; simpl; intros c s Hp.
  - rewrite app_nil_r. now rewrite insert_id.
  - unfold Fs.write. rewrite Hp.
    rewrite (IH (c ++ t)) by apply lookup_insert_eq.
    now rewrite insert_insert_eq, <- app_assoc.
Qed.

Lemma publish_staging (cols : list pystr) (rows : list row) :
  publish cols rows = staging cols rows ++ [Replace TMP OUT].
Proof. reflexivity. Qed.

Lemma staging_safe (cols : list pystr) (rows : list row) : forallb safe (staging cols rows) = true.
Proof.
  unfold staging. cbn [forallb]. apply andb_true_iff. split; [reflexivity|].
  apply forallb_forall. intros st Hin. apply in_map_iff in Hin.
  destruct Hin as (t & <- & _). reflexivity.
Qed.

Lemma take_snoc_lt {A : Type} (l : list A) (x : A) (k : nat) :
  (k < length (l ++ [x]))%nat -> take k (l ++ [x]) = take k l.
Proof.
  rewrite length_app. simpl. intros Hk.
  rewrite take_app_le by lia. reflexivity.
Qed.

Lemma forallb_take {A : Type} (f : A -> bool) (l : list A) (k : nat) :
  forallb f l = true -> forallb f (take k l) = true.
Proof.
  revert k. induction l as [|x l IH]; intros [|k]; simpl; try reflexivity.
  intros H. apply andb_true_iff in H. destruct H as [Hx Hl].
  rewrite Hx. now apply IH.
Qed.

Lemma open_w_ok (p : Fs.path) (s : Fs.fs) :
  p <> [] -> Fs.is_dir s (Fs.parent p) = true -> s !! p <> Some Fs.Dir ->
  Fs.open_w p s = Ok (<[p := Fs.File []]> s).
Proof.
  intros Hp Hdir Hnd. unfold Fs.open_w. rewrite Hdir. cbn [negb].
  destruct p as [|c p]; [congruence|].
  destruct (s !! (c :: p)) as [[|content]|]; congruence.
Qed.

Section Publish.
Variable fromisoformat : pystr -> result datetime.

Lemma main_steps (now : Z) (files : list dataset) :
  main fromisoformat now files =
    match newest_by_mtime files with
    | None => [MkdirParents VIZ_DIR]
    | Some src =>
        (MkdirParents VIZ_DIR :: staging (columns src) (rows_out fromisoformat now (records src)))
        ++ [Replace TMP OUT]
    end.
Proof. unfold main. now destruct (newest_by_mtime files). Qed.

Lemma main_interrupted (now : Z) (files : list dataset) (s : Fs.fs) (k : nat) :
  (k < length (main fromisoformat now files))%nat ->
  (exec_all (take k (main fromisoformat now files)) s).1 !! OUT = s !! OUT.
Proof.
  rewrite main_steps. destruct (newest_by_mtime files) as [src|]; intros Hk.
  - rewrite take_snoc_lt by exact Hk.
    apply exec_all_safe, forallb_take.
    cbn [forallb]. apply andb_true_iff. split; [reflexivity | apply staging_safe].
  - simpl in Hk. assert (k = 0)%nat as -> by lia. reflexivity.
Qed.

Lemma staging_run (cols : list pystr) (rows : list row) (s : Fs.fs) :
  Fs.is_dir s VIZ_DIR = true ->
  s !! TMP <> Some Fs.Dir ->
  exec_all (staging cols rows) s =
    (<[TMP := Fs.File (snapshot_text cols rows)]> s, None).
Proof.
  intros Hdir Htmp. unfold staging. cbn [exec_all exec].
  rewrite open_w_ok; [| discriminate | exact Hdir | exact Htmp].
  rewrite (exec_all_writes _ TMP []) by apply lookup_insert_eq.
  now rewrite insert_insert_eq.
Qed.
End Publish.

(** ** Initialization of the dataset file (C7) *)

Lemma ensure_csv_makes (p : Fs.path) (s s1 : Fs.fs) :
  Collector.ensure_csv p s = Ok s1 -> Fs.path_exists s1 p = true.
Proof.
  unfold Collector.ensure_csv.
  destruct (Fs.path_exists s p) eqn:Hex; cbn [negb].
  { intros H. inversion H; subst. exact Hex. }
  destruct (Fs.mkdir_parents (Fs.parent p) s) as [s0|e]; [|discriminate].
  cbn [bind]. destruct (Fs.open_w p s0) as [s2|e]; [|discriminate].
  cbn [bind]. unfold Fs.write.
  destruct (s2 !! p) as [[|content]|]; try discriminate.
  intros H. inversion H; subst.
  destruct p as [|c p]; [reflexivity|]. simpl. now rewrite lookup_insert_eq.
Qed.

(** C7. Initialization is idempotent. Where the path exists,
    [ensure_csv] returns the file system as it is. On a fresh path (and
    no regular file in the place of a parent directory) it succeeds and
    leaves at the path a file that holds the header row and nothing else;
    a second call then changes nothing. *)
Theorem ensure_csv_idempotent (p : Fs.path) (s : Fs.fs) :
  (Fs.path_exists s p = true -> Collector.ensure_csv p s = Ok s)
  /\ (Fs.path_exists s p = false -> clear_way s [] (Fs.parent p) = true ->
      exists s1, Collector.ensure_csv p s = Ok s1
                 /\ s1 !! p = Some (Fs.File header)
                 /\ Collector.ensure_csv p s1 = Ok s1)
  /\ (forall s1, Collector.ensure_csv p s = Ok s1 ->
                 Collector.ensure_csv p s1 = Ok s1)
  /\ header = join [COMMA] Collector.FIELDNAMES ++ [CR; LF]
  /\ splitlines header = [join [COMMA] Collector.FIELDNAMES].
Proof.
  split; [apply ensure_csv_existing|].
  split.
  { intros Hex Hway.
    destruct (ensure_csv_fresh p s Hex Hway) as (s1 & Hs1 & Hfile & Hex1).
    exists s1. split; [exact Hs1|]. split; [exact Hfile|].
    now apply ensure_csv_existing. }
  split.
  { intros s1 Hs1. apply ensure_csv_existing. eapply ensure_csv_makes, Hs1. }
  split; vm_compute; reflexivity.
Qed.

(** C7 on the first day file of an empty disk. *)
Lemma ensure_csv_idempotent_witness :
  exists s1,
    Collector.ensure_csv
      (Collector.OUTDIR ++ [of_string "bakeoff_20260211.csv"]) ∅ = Ok s1
    /\ s1 !! (Collector.OUTDIR ++ [of_string "bakeoff_20260211.csv"])
       = Some (Fs.File header)
    /\ Collector.ensure_csv
         (Collector.OUTDIR ++ [of_string "bakeoff_20260211.csv"]) s1 = Ok s1.
Proof.
  apply (ensure_csv_idempotent
           (Collector.OUTDIR ++ [of_string "bakeoff_20260211.csv"]) ∅).
  - reflexivity.
  - reflexivity.
Defined.

Lemma TMP_not_OUT : TMP <> OUT.
Proof. discriminate. Qed.

Lemma replace_staged (text : pystr) (s : Fs.fs) :
  s !! TMP = Some (Fs.File text) ->
  s !! OUT <> Some Fs.Dir ->
  Fs.replace TMP OUT s = Ok (<[OUT := Fs.File text]> (delete TMP s)).
Proof.
  intros Htmp Hout. unfold Fs.replace. rewrite Htmp.
  destruct (s !! OUT) as [[|c]|]; congruence.
Qed.

Lemma open_w_on_dir (p : Fs.path) (s : Fs.fs) :
  Fs.is_dir s (Fs.parent p) = true -> s !! p = Some Fs.Dir ->
  Fs.open_w p s = Raise OSError.
Proof.
  intros Hdir Hp. unfold Fs.open_w. rewrite Hdir. cbn [negb].
  destruct p as [|c p]; [reflexivity|]. now rewrite Hp.
Qed.

Section Swap.

Variable fromisoformat : pystr -> result datetime.

(** A whole run of [main] over a data directory that holds a file: it
    ends with the new snapshot in place, or it raised and the published
    file is the one from before. *)
Lemma main_run (now : Z) (files : list dataset) (src : dataset) (s : Fs.fs) :
  newest_by_mtime files = Some src ->
  let text := snapshot_text (columns src) (rows_out fromisoformat now (records src)) in
  let end_ := exec_all (main fromisoformat now files) s in
  end_.1 !! OUT = s !! OUT
  \/ (end_.2 = None /\ end_.1 !! OUT = Some (Fs.File text) /\ end_.1 !! TMP = None).
Proof.
  intros Hsrc. cbv zeta. rewrite main_steps, Hsrc.
  set (text := snapshot_text (columns src) (rows_out fromisoformat now (records src))).
  change ((MkdirParents VIZ_DIR :: ?a) ++ ?b) with (MkdirParents VIZ_DIR :: (a ++ b)).
  cbn [exec_all exec]. unfold Fs.mkdir_parents.
  destruct (Fs.mkdir_from [] VIZ_DIR s) as [s1|e] eqn:Hmk; [|left; reflexivity].
  assert (Hout1 : s1 !! OUT = s !! OUT).
  { eapply mkdir_from_frame; [exact Hmk|]. simpl. lia. }
  assert (Htmp1 : s1 !! TMP = s !! TMP).
  { eapply mkdir_from_frame; [exact Hmk|]. simpl. lia. }
  assert (Hdir : Fs.is_dir s1 VIZ_DIR = true).
  { apply mkdir_from_dir in Hmk; [|discriminate]. simpl in Hmk.
    unfold Fs.is_dir. simpl. now rewrite Hmk. }
  rewrite exec_all_app.
  assert (Hd : s1 !! TMP = Some Fs.Dir \/ s1 !! TMP <> Some Fs.Dir).
  { destruct (s1 !! TMP) as [[|c]|]; [left; reflexivity | right | right];
      discriminate. }
  destruct Hd as [Hd|Hd].
  { left. unfold staging. cbn [exec_all exec].
    rewrite (open_w_on_dir TMP s1 Hdir Hd). exact Hout1. }
  rewrite (staging_run _ _ s1 Hdir Hd). fold text. cbn [exec_all exec].
  set (s2 := <[TMP := Fs.File text]> s1).
  assert (Hout2 : s2 !! OUT = s !! OUT).
  { unfold s2. rewrite lookup_insert_ne by exact TMP_not_OUT. exact Hout1. }
  assert (Ho : s2 !! OUT = Some Fs.Dir \/ s2 !! OUT <> Some Fs.Dir).
  { destruct (s2 !! OUT) as [[|c]|]; [left; reflexivity | right | right];
      discriminate. }
  destruct Ho as [Ho|Ho].
  { left. unfold Fs.replace.
    assert (Ht : s2 !! TMP = Some (Fs.File text)) by apply lookup_insert_eq.
    rewrite Ht, Ho. exact Hout2. }
  right. rewrite (replace_staged text s2); [| apply lookup_insert_eq | exact Ho].
  cbn [fst snd]. split; [reflexivity|].
  split; [apply lookup_insert_eq|].
  rewrite lookup_insert_ne by (intros H; now apply TMP_not_OUT).
  apply lookup_delete_eq.
Qed.

Lemma main_completes (now : Z) (files : list dataset) (src : dataset) (s : Fs.fs) :
  newest_by_mtime files = Some src ->
  clear_way s [] VIZ_DIR = true ->
  s !! TMP <> Some Fs.Dir -> s !! OUT <> Some Fs.Dir ->
  exists s',
    exec_all (main fromisoformat now files) s = (s', None)
    /\ s' !! OUT
       = Some (Fs.File (snapshot_text (columns src)
                          (rows_out fromisoformat now (records src))))
    /\ s' !! TMP = None.
Proof.
  intros Hsrc Hway Htmp Hout. rewrite main_steps, Hsrc.
  change ((MkdirParents VIZ_DIR :: ?a) ++ ?b) with (MkdirParents VIZ_DIR :: (a ++ b)).
  cbn [exec_all exec]. unfold Fs.mkdir_parents.
  destruct (mkdir_from_total [] VIZ_DIR s Hway) as [s1 Hmk]. rewrite Hmk.
  assert (Hout1 : s1 !! OUT = s !! OUT).
  { eapply mkdir_from_frame; [exact Hmk|]. simpl. lia. }
  assert (Htmp1 : s1 !! TMP = s !! TMP).
  { eapply mkdir_from_frame; [exact Hmk|]. simpl. lia. }
  assert (Hdir : Fs.is_dir s1 VIZ_DIR = true).
  { apply mkdir_from_dir in Hmk; [|discriminate]. simpl in Hmk.
    unfold Fs.is_dir. simpl. now rewrite Hmk. }
  rewrite exec_all_app, staging_run; [| exact Hdir | now rewrite Htmp1].
  cbn [exec_all exec].
  rewrite (replace_staged _ _ (lookup_insert_eq _ _ _)).
  - eexists. split; [reflexivity|]. split; [apply lookup_insert_eq|].
    rewrite lookup_insert_ne by (intros H; now apply TMP_not_OUT).
    apply lookup_delete_eq.
  - rewrite lookup_insert_ne by exact TMP_not_OUT. now rewrite Hout1.
Qed.

End Swap.

(** ** The window of the transform (C5) *)

Lemma utc_instant_spec (t : datetime) : utc_instant t = instant_of t.
Proof.
  unfold utc_instant, instant_of. destruct (utcoffset t); simpl; lia.
Qed.

Section WindowFacts.

Variable fromisoformat : pystr -> result datetime.

Lemma select_in_window (now : Z) (r : row) :
  in_window fromisoformat now r ->
  select fromisoformat now r = Some (sanitize_row r).
Proof.
  intros (t & Ht & Hnot). unfold select. rewrite Ht, utc_instant_spec.
  destruct (instant_of t <? now - WINDOW) eqn:E; [|reflexivity].
  apply Z.ltb_lt in E. contradiction.
Qed.


Lemma select_some (now : Z) (r r' : row) :
  select fromisoformat now r = Some r' <->
  in_window fromisoformat now r /\ r' = sanitize_row r.
Proof.
  split.
  - intros H. unfold select in H.
    destruct (parse_ts fromisoformat (get r (of_string "ts") (Some []))) as [t|] eqn:Ht;
      [|discriminate].
    rewrite utc_instant_spec in H.
    destruct (instant_of t <? now - WINDOW) eqn:E; [discriminate|].
    apply Z.ltb_ge in E. inversion H; subst. split; [|reflexivity].
    exists t. split; [exact Ht|]. change (hours 24) with WINDOW. lia.
  - intros [Hin ->]. now apply select_in_window.
Qed.

Lemma rows_out_cons (now : Z) (r : row) (rows : list row) :
  rows_out fromisoformat now (r :: rows)
  = match select fromisoformat now r with
    | Some r' => r' :: rows_out fromisoformat now rows
    | None => rows_out fromisoformat now rows
    end.
Proof. reflexivity. Qed.


End WindowFacts.



(** ** The swap of the snapshot (C9) *)

(** C9. [main] writes the snapshot to the temporary file
    latest.csv.tmp and renames it over latest.csv in its last step.
    Interrupted after any number of steps before that rename, it leaves
    the published file as it was; at every point of a run the published
    file is the previous one or the complete new one; and a run that
    nothing hinders ends with the complete snapshot in place and the
    temporary name gone. *)
Theorem snapshot_swapped_atomically (fromisoformat : pystr -> result datetime)
    (now : Z) (files : list dataset) (s : Fs.fs) :
  TMP = VIZ_DIR ++ [of_string "latest.csv.tmp"]
  /\ TMP <> OUT
  /\ (forall k, (k < length (main fromisoformat now files))%nat ->
        (exec_all (take k (main fromisoformat now files)) s).1 !! OUT = s !! OUT)
  /\ (forall src, newest_by_mtime files = Some src ->
        last (main fromisoformat now files) = Some (Replace TMP OUT)
        /\ forall k,
             (exec_all (take k (main fromisoformat now files)) s).1 !! OUT
             = s !! OUT
             \/ (exec_all (take k (main fromisoformat now files)) s).1 !! OUT
                = Some (Fs.File (snapshot_text (columns src)
                                   (rows_out fromisoformat now (records src)))))
  /\ (forall src, newest_by_mtime files = Some src ->
        clear_way s [] VIZ_DIR = true ->
        s !! TMP <> Some Fs.Dir -> s !! OUT <> Some Fs.Dir ->
        exists s',
          exec_all (main fromisoformat now files) s = (s', None)
          /\ s' !! OUT
             = Some (Fs.File (snapshot_text (columns src)
                                (rows_out fromisoformat now (records src))))
          /\ s' !! TMP = None).
Proof.
  split; [reflexivity|].
  split; [exact TMP_not_OUT|].
  split; [intros k; apply main_interrupted|].
  split.
  - intros src Hsrc. split.
    + rewrite main_steps, Hsrc. apply last_snoc.
    + intros k.
      destruct (Nat.lt_ge_cases k (length (main fromisoformat now files)))
        as [Hk|Hk].
      * left. now apply main_interrupted.
      * rewrite take_ge by exact Hk.
        destruct (main_run fromisoformat now files src s Hsrc) as [H|(_ & H & _)];
          [left | right]; exact H.
  - intros src. apply main_completes.
Qed.

(** C9 on a disk that holds a published snapshot: after the three
    steps that make the directory and write the header to the temporary
    file, the published file still reads "old". *)
Lemma snapshot_swapped_atomically_witness :
  (exec_all
     (take 3 (main Examples.fromisoformat_seconds Examples.clock
                [Examples.day_file [Examples.row_now; Examples.row_25h]]))
     (<[OUT := Fs.File (of_string "old")]> ∅)).1 !! OUT
  = Some (Fs.File (of_string "old")).
Proof.
  pose proof (snapshot_swapped_atomically Examples.fromisoformat_seconds
                Examples.clock
                [Examples.day_file [Examples.row_now; Examples.row_25h]]
                (<[OUT := Fs.File (of_string "old")]> ∅))
    as (_ & _ & H & _).
  rewrite H; [apply lookup_insert_eq|]. vm_compute. lia.
Defined.

(* ===================================================================== *)
(** * Further properties of the two scripts *)
(* ===================================================================== *)

(** ** The cadence of the probes *)

Lemma bucket_mod (h m k : Z) : (k | 60) -> (Collector.minute_bucket h m) mod k = m mod k.
Proof.
  intros [c Hc]. unfold Collector.minute_bucket.
  rewrite Hc, Z.mul_assoc, Z.add_comm. apply Z_mod_plus_full.
Qed.

(** X1. Whatever the hour, the route probe is due exactly in the
    minutes 0, 15, 30 and 45 and the bandwidth probe exactly in the minutes
    0 and 30: the bucket taken modulo 15 or 30 is the minute taken modulo
    15 or 30, and the bandwidth probe is never due without the route
    probe. *)
Theorem cadence_by_minute (h m : Z) :
  Run.due (Collector.minute_bucket h m) Collector.TRACEROUTE_EVERY_MIN
  = (m mod 15 =? 0)
  /\ Run.due (Collector.minute_bucket h m) Collector.SPEEDTEST_EVERY_MIN
     = (m mod 30 =? 0)
  /\ (Run.due (Collector.minute_bucket h m) Collector.SPEEDTEST_EVERY_MIN = true ->
      Run.due (Collector.minute_bucket h m) Collector.TRACEROUTE_EVERY_MIN = true)
  /\ (0 <= m < 60 ->
      (Run.due (Collector.minute_bucket h m) Collector.TRACEROUTE_EVERY_MIN = true
       <-> m = 0 \/ m = 15 \/ m = 30 \/ m = 45)
      /\ (Run.due (Collector.minute_bucket h m) Collector.SPEEDTEST_EVERY_MIN = true
          <-> m = 0 \/ m = 30)).
Proof.
  unfold Run.due, Collector.TRACEROUTE_EVERY_MIN, Collector.SPEEDTEST_EVERY_MIN.
  rewrite (bucket_mod h m 15) by (exists 4; reflexivity).
  rewrite (bucket_mod h m 30) by (exists 2; reflexivity).
  split; [reflexivity|]. split; [reflexivity|]. split.
  - rewrite !Z.eqb_eq. intros H.
    pose proof (Z.div_mod m 30). pose proof (Z.div_mod m 15).
    pose proof (Z.mod_pos_bound m 15). lia.
  - intros Hm. rewrite !Z.eqb_eq.
    pose proof (Z.div_mod m 30). pose proof (Z.div_mod m 15).
    pose proof (Z.mod_pos_bound m 15). pose proof (Z.mod_pos_bound m 30).
    split; split; intros; lia.
Qed.

(** ** The phase label *)

Lemma read_phase_ok (env : Run.environ) (s : Fs.fs) (phase : pystr) :
  Run.read_phase env s = Ok phase ->
  phase <> []
  /\ strip phase = phase
  /\ (strip (default [] (env !! of_string "PHASE")) <> [] ->
      phase = strip (default [] (env !! of_string "PHASE")))
  /\ (strip (default [] (env !! of_string "PHASE")) = [] ->
      s !! Run.PHASE_FILE = None -> phase = Run.UNKNOWN)
  /\ (strip (default [] (env !! of_string "PHASE")) = [] ->
      forall text, s !! Run.PHASE_FILE = Some (Fs.File text) ->
      strip (Run.universal_newlines text) = [] -> phase = Run.UNKNOWN).
Proof.
  unfold Run.read_phase.
  destruct (strip (default [] (env !! of_string "PHASE"))) as [|c e] eqn:He.
  - unfold Fs.path_exists, Run.read_text. simpl.
    destruct (s !! Run.PHASE_FILE) as [[|text]|] eqn:Hf; simpl; try discriminate.
    + destruct (strip (Run.universal_newlines text)) as [|c t] eqn:Ht;
        intros H; inversion H; subst.
      * split; [discriminate|]. split; [reflexivity|].
        split; [congruence|]. split; [reflexivity|]. reflexivity.
      * split; [discriminate|]. split; [rewrite <- Ht; apply strip_idem|].
        split; [congruence|]. split; [discriminate|].
        intros _ text' Htext' Hempty. inversion Htext'; subst. congruence.
    + intros H. inversion H; subst.
      split; [discriminate|]. split; [reflexivity|].
      split; [congruence|]. split; [reflexivity|]. discriminate.
  - intros H. inversion H; subst.
    split; [discriminate|]. split; [rewrite <- He; apply strip_idem|].
    split; [reflexivity|]. split; discriminate.
Qed.

Lemma read_phase_raise (env : Run.environ) (s : Fs.fs) (e : exn) :
  Run.read_phase env s = Raise e ->
  strip (default [] (env !! of_string "PHASE")) = []
  /\ s !! Run.PHASE_FILE = Some Fs.Dir.
Proof.
  unfold Run.read_phase.
  destruct (strip (default [] (env !! of_string "PHASE"))) as [|c t]; [|discriminate].
  unfold Fs.path_exists, Run.read_text. simpl.
  destruct (s !! Run.PHASE_FILE) as [[|text]|]; simpl; try discriminate.
  intros _. split; reflexivity.
Qed.

(** X2. The phase label that [read_phase] returns is never empty and
    has no whitespace at its ends; a PHASE of the environment that is not
    blank wins over the phase file; without it, a missing or blank phase
    file gives UNKNOWN. [read_phase] raises only when PHASE is blank and
    the phase file is a directory. *)
Theorem read_phase_label (env : Run.environ) (s : Fs.fs) :
  (forall phase, Run.read_phase env s = Ok phase ->
     phase <> []
     /\ strip phase = phase
     /\ (strip (default [] (env !! of_string "PHASE")) <> [] ->
         phase = strip (default [] (env !! of_string "PHASE")))
     /\ (strip (default [] (env !! of_string "PHASE")) = [] ->
         s !! Run.PHASE_FILE = None -> phase = Run.UNKNOWN)
     /\ (strip (default [] (env !! of_string "PHASE")) = [] ->
         forall text, s !! Run.PHASE_FILE = Some (Fs.File text) ->
         strip (Run.universal_newlines text) = [] -> phase = Run.UNKNOWN))
  /\ (forall e, Run.read_phase env s = Raise e ->
        strip (default [] (env !! of_string "PHASE")) = []
        /\ s !! Run.PHASE_FILE = Some Fs.Dir).
Proof.
  split; [intros phase; apply read_phase_ok | intros e; apply read_phase_raise].
Qed.

(** X2 with PHASE set to "  wifi6 " beside a phase file that says
    "cable": the label is "wifi6". *)
Lemma read_phase_label_witness :
  Run.read_phase (<[of_string "PHASE" := of_string "  wifi6 "]> ∅)
    (<[Run.PHASE_FILE := Fs.File (of_string "cable")]> ∅)
  = Ok (of_string "wifi6")
  /\ of_string "wifi6" <> [].
Proof.
  split; [reflexivity|].
  apply (read_phase_label (<[of_string "PHASE" := of_string "  wifi6 "]> ∅)
           (<[Run.PHASE_FILE := Fs.File (of_string "cable")]> ∅)).
  reflexivity.
Defined.

(** ** The lines that PING_RE matches *)

Lemma strip_prefix_sound (pre s r : pystr) :
  Collector.strip_prefix pre s = Some r -> s = pre ++ r.
Proof.
  revert s. induction pre as [|a pre IH]; intros [|b s] H; simpl in *;
    try congruence.
  destruct (a =? b)%N eqn:E; [|discriminate].
  apply N.eqb_eq in E. subst. f_equal. now apply IH.
Qed.

Lemma strip_prefix_app (pre r : pystr) :
  Collector.strip_prefix pre (pre ++ r) = Some r.
Proof.
  induction pre as [|a pre IH]; simpl; [now destruct r|].
  now rewrite N.eqb_refl.
Qed.

Lemma span_sound (p : codepoint -> bool) (s a b : pystr) :
  Collector.span p s = (a, b) -> s = a ++ b /\ forallb p a = true.
Proof.
  revert a b. induction s as [|c s IH]; simpl; intros a b H.
  - inversion H. split; reflexivity.
  - destruct (p c) eqn:Hc.
    + destruct (Collector.span p s) as [a' b'] eqn:Hs. inversion H; subst.
      destruct (IH a' b eq_refl) as [-> Ha]. simpl. now rewrite Hc, Ha.
    + inversion H. split; reflexivity.
Qed.

Lemma span_app (p : codepoint -> bool) (a b : pystr) :
  forallb p a = true ->
  match b with [] => True | c :: _ => p c = false end ->
  Collector.span p (a ++ b) = (a, b).
Proof.
  intros Ha Hb. induction a as [|c a IH].
  - destruct b as [|c b]; [reflexivity|]. simpl. now rewrite Hb.
  - simpl in Ha. apply andb_true_iff in Ha. destruct Ha as [Hc Ha].
    cbn [app Collector.span]. rewrite Hc, (IH Ha). reflexivity.
Qed.

Lemma isspace_not_digit_or_dot (c : codepoint) :
  isspace c = true -> Collector.is_digit_or_dot c = false.
Proof.
  unfold isspace, Collector.is_digit_or_dot, Collector.is_digit, in_range,
    Collector.DOT.
  intros H. apply orb_false_iff. split.
  - apply andb_false_iff.
    destruct (48 <=? c)%N eqn:E1; [right|left; reflexivity].
    destruct (c <=? 57)%N eqn:E2; [|reflexivity].
    apply N.leb_le in E1, E2. exfalso.
    repeat rewrite orb_true_iff in H. repeat rewrite andb_true_iff in H.
    repeat rewrite N.leb_le in H. repeat rewrite N.eqb_eq in H. lia.
  - apply N.eqb_neq. intros ->. discriminate.
Qed.

Lemma match_here_sound (s g : pystr) :
  Collector.match_here s = Some g ->
  exists ws post,
    s = of_string "time=" ++ g ++ ws ++ of_string "ms" ++ post
    /\ g <> []
    /\ forallb Collector.is_digit_or_dot g = true
    /\ forallb isspace ws = true.
Proof.
  unfold Collector.match_here.
  destruct (Collector.strip_prefix (of_string "time=") s) as [r|] eqn:Hp; [|discriminate].
  apply strip_prefix_sound in Hp.
  destruct (Collector.span Collector.is_digit_or_dot r) as [num r1] eqn:Hn.
  apply span_sound in Hn. destruct Hn as [-> Hnum].
  destruct num as [|d num]; [discriminate|].
  destruct (Collector.span isspace r1) as [ws r2] eqn:Hw.
  apply span_sound in Hw. destruct Hw as [-> Hws]. cbn [snd].
  destruct (Collector.strip_prefix (of_string "ms") r2) as [post|] eqn:Hm; [|discriminate].
  apply strip_prefix_sound in Hm. intros H. inversion H; subst.
  exists ws, post. split; [reflexivity|].
  split; [discriminate | split; assumption].
Qed.

Lemma match_here_complete (g ws post : pystr) :
  g <> [] ->
  forallb Collector.is_digit_or_dot g = true ->
  forallb isspace ws = true ->
  Collector.match_here (of_string "time=" ++ g ++ ws ++ of_string "ms" ++ post)
  = Some g.
Proof.
  intros Hg Hd Hw. unfold Collector.match_here.
  rewrite strip_prefix_app.
  rewrite span_app; [| exact Hd |].
  - destruct g as [|d g]; [congruence|].
    rewrite span_app; [| exact Hw | reflexivity]. cbn [snd].
    now rewrite strip_prefix_app.
  - destruct ws as [|c ws]; [reflexivity|]. simpl in Hw.
    apply andb_true_iff in Hw. destruct Hw as [Hc _].
    now apply isspace_not_digit_or_dot.
Qed.

Lemma search_sound (line g : pystr) :
  Collector.PING_RE_search line = Some g -> Shape.reply_shape line g.
Proof.
  induction line as [|c line IH]; simpl.
  - intros H. discriminate.
  - destruct (Collector.match_here (c :: line)) as [g'|] eqn:Hm.
    + intros H. inversion H; subst.
      destruct (match_here_sound _ _ Hm) as (ws & post & Hs & Hg & Hd & Hw).
      exists [], ws, post. auto.
    + intros H. destruct (IH H) as (pre & ws & post & -> & Hg & Hd & Hw).
      exists (c :: pre), ws, post. auto.
Qed.

Lemma search_complete (line g : pystr) :
  Shape.reply_shape line g -> is_reply line = true.
Proof.
  intros (pre & ws & post & -> & Hg & Hd & Hw). unfold is_reply.
  induction pre as [|c pre IH].
  - cbn [app]. 
    pose proof (match_here_complete g ws post Hg Hd Hw) as Hm.
    destruct (of_string "time=" ++ g ++ ws ++ of_string "ms" ++ post) as [|c l] eqn:E;
      [discriminate|].
    cbn [Collector.PING_RE_search]. now rewrite Hm.
  - cbn [app Collector.PING_RE_search].
    destruct (Collector.match_here _); [reflexivity | exact IH].
Qed.

(** X3. A line of the output of ping counts as a reply exactly when
    it holds the text time=, then a non-empty run of digits and dots, then
    blanks or nothing, then ms; and the text that [PING_RE.search] hands to
    [float] is such a run. *)
Theorem reply_lines_have_the_shape (line : pystr) :
  (is_reply line = true <-> exists g, Shape.reply_shape line g)
  /\ (forall g, Collector.PING_RE_search line = Some g -> Shape.reply_shape line g).
Proof.
  split; [|intros g; apply search_sound].
  split.
  - unfold is_reply. destruct (Collector.PING_RE_search line) as [g|] eqn:H;
      [|discriminate].
    intros _. exists g. now apply search_sound.
  - intros [g Hg]. eapply search_complete, Hg.
Qed.

(** ** The times that are read from the output of ping *)

Lemma digits_value_from (s : pystr) (acc : Z) :
  forallb Collector.is_digit s = true -> 0 <= acc ->
  0 <= fold_left (fun a c => 10 * a + Collector.digit_value c) s acc.
Proof.
  revert acc. induction s as [|c s IH]; simpl; intros acc Hs Hacc; [exact Hacc|].
  apply andb_true_iff in Hs. destruct Hs as [Hc Hs].
  apply IH; [exact Hs|].
  unfold Collector.is_digit, in_range in Hc. apply andb_true_iff in Hc.
  destruct Hc as [H1 H2]. apply N.leb_le in H1, H2.
  unfold Collector.digit_value. lia.
Qed.

Lemma float_of_token_nonneg (g : pystr) (t : Q) :
  Collector.float_of_token g = Ok t -> (0 <= t)%Q.
Proof.
  unfold Collector.float_of_token.
  destruct (Collector.span Collector.is_digit g) as [ip rest] eqn:Hs.
  apply span_sound in Hs. destruct Hs as [_ Hip].
  destruct rest as [|c fp].
  - destruct ip as [|d ip]; [discriminate|]. intros H. inversion H; subst.
    rewrite <- (Zle_Qle 0). now apply digits_value_from.
  - destruct ((c =? Collector.DOT)%N && forallb Collector.is_digit fp
              && negb (Nat.eqb (length ip + length fp) 0)) eqn:E; [|discriminate].
    apply andb_true_iff in E. destruct E as [E _].
    apply andb_true_iff in E. destruct E as [_ Hfp].
    intros H. inversion H; subst. rewrite Qred_correct.
    unfold Qle. simpl. rewrite Z.mul_1_r.
    apply digits_value_from; [|lia].
    rewrite forallb_app. now rewrite Hip, Hfp.
Qed.

Lemma float_of_token_raise (g : pystr) (e : exn) :
  Collector.float_of_token g = Raise e -> e = ValueError.
Proof.
  unfold Collector.float_of_token.
  destruct (Collector.span Collector.is_digit g) as [ip rest].
  destruct rest as [|c fp].
  - destruct ip; [|discriminate]. intros H. now inversion H.
  - destruct (_ && _ && _); [discriminate|]. intros H. now inversion H.
Qed.

Lemma parse_lines_nonneg (lines : list pystr) (times : list Q) :
  Collector.parse_lines lines = Ok times -> Forall (fun t => 0 <= t)%Q times.
Proof.
  revert times. induction lines as [|line lines IH]; simpl; intros times H.
  - inversion H. constructor.
  - destruct (Collector.PING_RE_search line) as [g|]; [|now apply IH].
    destruct (Collector.float_of_token g) as [t|e] eqn:Ht; simpl in H; [|discriminate].
    destruct (Collector.parse_lines lines) as [ts|e]; simpl in H; [|discriminate].
    inversion H; subst. constructor; [eapply float_of_token_nonneg, Ht | now apply IH].
Qed.

Lemma parse_lines_raise (lines : list pystr) (e : exn) :
  Collector.parse_lines lines = Raise e -> e = ValueError.
Proof.
  induction lines as [|line lines IH]; simpl; [discriminate|].
  destruct (Collector.PING_RE_search line) as [g|]; [|exact IH].
  destruct (Collector.float_of_token g) as [t|e'] eqn:Ht; simpl.
  - destruct (Collector.parse_lines lines) as [ts|e']; simpl; [discriminate|].
    intros H. inversion H; subst. now apply IH.
  - intros H. inversion H; subst. eapply float_of_token_raise, Ht.
Qed.

(** X4. The times that [parse_ping_times_ms] returns are never
    negative, one per line that PING_RE matches and in the order of the
    lines; the only exception that it raises is the ValueError of a
    matched text that is no number (more than one dot, or no digit). *)
Theorem parsed_times_are_nonnegative (out : pystr) :
  (forall times, Collector.parse_ping_times_ms out = Ok times ->
     Forall (fun t => 0 <= t)%Q times
     /\ length times = length (reply_lines out)
     /\ Forall2 (fun t line =>
                   exists g, Collector.PING_RE_search line = Some g
                             /\ Collector.float_of_token g = Ok t)
          times (reply_lines out))
  /\ (forall e, Collector.parse_ping_times_ms out = Raise e -> e = ValueError).
Proof.
  unfold Collector.parse_ping_times_ms, reply_lines.
  split; [|intros e; apply parse_lines_raise].
  intros times H. split; [eapply parse_lines_nonneg, H|].
  split; [now apply parse_lines_length|].
  revert times H. induction (splitlines out) as [|line lines IH]; simpl; intros times H.
  - inversion H. constructor.
  - unfold is_reply at 1.
    destruct (Collector.PING_RE_search line) as [g|] eqn:Hg; [|now apply IH].
    destruct (Collector.float_of_token g) as [t|e] eqn:Ht; simpl in H; [|discriminate].
    destruct (Collector.parse_lines lines) as [ts|e]; simpl in H; [|discriminate].
    inversion H; subst. constructor; [eauto | now apply IH].
Qed.

(** ** The order of the percentiles *)

Lemma sorted_nth_le (v : list Q) (i j : nat) :
  Sorted Qle v -> (i <= j < length v)%nat -> (nth i v 0 <= nth j v 0)%Q.
Proof.
  intros Hs. apply Sorted_StronglySorted in Hs; [|intros x y z; apply Qle_trans].
  revert i j. induction Hs as [|x v Hv IH Hx]; intros i j [Hij Hj]; simpl in *; [lia|].
  destruct i as [|i], j as [|j]; try lia.
  - apply Qle_refl.
  - rewrite Forall_forall in Hx. apply Hx, list_elem_of_In, nth_In. lia.
  - apply IH. lia.
Qed.

Lemma ceiling_cases (x : Q) :
  (x == inject_Z (Qfloor x))%Q /\ Qceiling x = Qfloor x
  \/ (inject_Z (Qfloor x) < x)%Q /\ Qceiling x = Qfloor x + 1.
Proof.
  pose proof (Qfloor_le x) as Hfl. pose proof (Qlt_floor x) as Hfu.
  pose proof (Qle_ceiling x) as Hcl. pose proof (Qceiling_lt x) as Hcu.
  destruct (Qeq_dec x (inject_Z (Qfloor x))) as [E|E].
  - left. split; [exact E|]. rewrite E at 1. apply Qceiling_Z.
  - right. assert (Hlt : (inject_Z (Qfloor x) < x)%Q).
    { apply Qle_lteq in Hfl. destruct Hfl as [H|H]; [exact H|]. now symmetry in H. }
    split; [exact Hlt|].
    assert (Qfloor x < Qceiling x).
    { rewrite Zlt_Qlt. eapply Qlt_le_trans; eassumption. }
    assert (Qceiling x - 1 < Qfloor x + 1).
    { rewrite Zlt_Qlt. eapply Qlt_trans; eassumption. }
    lia.
Qed.

Section Interpolation.

Variable v : list Q.
Hypothesis v_sorted : Sorted Qle v.

Lemma at_index_between (idx : Q) :
  (0 <= idx)%Q -> (idx <= inject_Z (len v - 1))%Q ->
  (nth (Z.to_nat (Qfloor idx)) v 0 <= Shape.at_index v idx
   <= nth (Z.to_nat (Qceiling idx)) v 0)%Q.
Proof.
  intros H0 H1. unfold Shape.at_index.
  pose proof (Qfloor_le idx) as Hfl. pose proof (Qlt_floor idx) as Hfu.
  assert (Hf0 : 0 <= Qfloor idx).
  { rewrite <- (Qfloor_Z 0). now apply Qfloor_resp_le. }
  assert (Hc1 : Qceiling idx <= len v - 1).
  { rewrite <- (Qceiling_Z (len v - 1)). now apply Qceiling_resp_le. }
  pose proof (Qle_floor_ceiling idx) as Hfc. rewrite <- Zle_Qle in Hfc.
  assert (Hle : (nth (Z.to_nat (Qfloor idx)) v 0 <= nth (Z.to_nat (Qceiling idx)) v 0)%Q).
  { apply sorted_nth_le; [exact v_sorted|]. unfold len in Hc1. lia. }
  set (a := nth (Z.to_nat (Qfloor idx)) v 0%Q) in *.
  set (b := nth (Z.to_nat (Qceiling idx)) v 0%Q) in *.
  rewrite inject_Z_plus in Hfu.
  change (inject_Z 1) with 1%Q in Hfu.
  generalize dependent (inject_Z (Qfloor idx)). intros fl Hfl Hfu.
  split; nra.
Qed.

Lemma at_index_mono (i1 i2 : Q) :
  (0 <= i1)%Q -> (i1 <= i2)%Q -> (i2 <= inject_Z (len v - 1))%Q ->
  (Shape.at_index v i1 <= Shape.at_index v i2)%Q.
Proof.
  intros H0 H12 H2.
  assert (H1 : (i1 <= inject_Z (len v - 1))%Q) by lra.
  assert (H02 : (0 <= i2)%Q) by lra.
  pose proof (at_index_between i1 H0 H1) as [_ Hu1].
  pose proof (at_index_between i2 H02 H2) as [Hl2 _].
  pose proof (Qfloor_resp_le _ _ H12) as Hff.
  assert (Hf0 : 0 <= Qfloor i1).
  { rewrite <- (Qfloor_Z 0). now apply Qfloor_resp_le. }
  assert (Hf2 : Qfloor i2 <= len v - 1).
  { rewrite <- (Qfloor_Z (len v - 1)). now apply Qfloor_resp_le. }
  destruct (Z.eq_dec (Qfloor i1) (Qfloor i2)) as [E|E].
  - destruct (ceiling_cases i1) as [[E1 C1]|[L1 C1]].
    + (* i1 is an integer *)
      apply Qle_trans with (nth (Z.to_nat (Qfloor i2)) v 0%Q); [|exact Hl2].
      unfold Shape.at_index. rewrite C1, <- E.
      apply Qle_lteq. right. ring.
    + destruct (ceiling_cases i2) as [[E2 C2]|[L2 C2]].
      * exfalso. rewrite <- E in E2. lra.
      * unfold Shape.at_index. rewrite C1, C2, <- E.
        assert (Hc : Qfloor i1 + 1 <= len v - 1).
        { rewrite <- C1. rewrite <- (Qceiling_Z (len v - 1)).
          now apply Qceiling_resp_le. }
        assert (Hle : (nth (Z.to_nat (Qfloor i1)) v 0
                       <= nth (Z.to_nat (Qfloor i1 + 1)) v 0%Q)%Q).
        { apply sorted_nth_le; [exact v_sorted|]. unfold len in Hc. lia. }
        set (a := nth (Z.to_nat (Qfloor i1)) v 0%Q) in *.
        set (b := nth (Z.to_nat (Qfloor i1 + 1)) v 0%Q) in *.
        nra.
  - apply Qle_trans with (nth (Z.to_nat (Qceiling i1)) v 0%Q); [exact Hu1|].
    apply Qle_trans with (nth (Z.to_nat (Qfloor i2)) v 0%Q); [|exact Hl2].
    apply sorted_nth_le; [exact v_sorted|].
    pose proof (Qle_floor_ceiling i1) as Hfc. rewrite <- Zle_Qle in Hfc.
    assert (Qceiling i1 <= Qfloor i1 + 1).
    { destruct (ceiling_cases i1) as [[_ C]|[_ C]]; lia. }
    unfold len in Hf2. lia.
Qed.

End Interpolation.

Lemma py_max_fold (l : list Q) (best : Q) :
  (best <= fold_left (fun b y => if Qle_bool y b then b else y) l best)%Q
  /\ Forall (fun y => y <= fold_left (fun b y => if Qle_bool y b then b else y) l best)%Q l.
Proof.
  revert best. induction l as [|y l IH]; intros best; simpl.
  - split; [apply Qle_refl | constructor].
  - destruct (Qle_bool y best) eqn:E.
    + destruct (IH best) as [Hb Hl]. split; [exact Hb|].
      constructor; [|exact Hl]. apply Qle_bool_iff in E.
      eapply Qle_trans; eassumption.
    + destruct (IH y) as [Hb Hl]. split; [|constructor; assumption].
      apply Qle_trans with y; [|exact Hb].
      apply Qlt_le_weak, Qnot_le_lt. intros H. apply Qle_bool_iff in H. congruence.
Qed.

Lemma py_max_upper (x : Q) (xs : list Q) (y : Q) :
  In y (x :: xs) -> (y <= py_max x xs)%Q.
Proof.
  unfold py_max. destruct (py_max_fold xs x) as [Hx Hxs].
  intros [<- | Hin]; [exact Hx|].
  rewrite Forall_forall in Hxs. now apply Hxs, list_elem_of_In.
Qed.

Lemma quantile_at_index (values : list Q) (q r : Q) :
  (0 <= q <= 1)%Q -> Collector.quantile values q = Ok (Some r) ->
  values <> []
  /\ (r == Shape.at_index (sorted values) (inject_Z (len (sorted values) - 1) * q))%Q.
Proof.
  intros Hq Hr. assert (Hne : values <> []).
  { intros ->. discriminate. }
  split; [exact Hne|].
  destruct (quantile_refines values q Hne Hq) as (r' & Hr' & Heq).
  rewrite Hr in Hr'. inversion Hr'; subst. exact Heq.
Qed.

Lemma index_in_range (values : list Q) (q : Q) :
  values <> [] -> (0 <= q <= 1)%Q ->
  (0 <= inject_Z (len (sorted values) - 1) * q)%Q
  /\ (inject_Z (len (sorted values) - 1) * q <= inject_Z (len (sorted values) - 1))%Q.
Proof.
  intros Hne [H0 H1].
  assert (Hn : (0 <= inject_Z (len (sorted values) - 1))%Q).
  { rewrite <- (Zle_Qle 0). unfold len. rewrite sorted_length.
    destruct values; [congruence|]. simpl. lia. }
  split; nra.
Qed.

Lemma quantile_order (values : list Q) (q1 q2 r1 r2 : Q) :
  (0 <= q1)%Q -> (q1 <= q2)%Q -> (q2 <= 1)%Q ->
  Collector.quantile values q1 = Ok (Some r1) ->
  Collector.quantile values q2 = Ok (Some r2) ->
  (r1 <= r2)%Q
  /\ (exists a, In a values /\ (a <= r1)%Q)
  /\ (forall x xs, values = x :: xs -> (r2 <= py_max x xs)%Q).
Proof.
  intros H0 H12 H1 Hr1 Hr2.
  assert (Hq1 : (0 <= q1 <= 1)%Q) by (split; lra).
  assert (Hq2 : (0 <= q2 <= 1)%Q) by (split; lra).
  destruct (quantile_at_index values q1 r1 Hq1 Hr1) as [Hne E1].
  destruct (quantile_at_index values q2 r2 Hq2 Hr2) as [_ E2].
  destruct (index_in_range values q1 Hne Hq1) as [Ha1 Hb1].
  destruct (index_in_range values q2 Hne Hq2) as [Ha2 Hb2].
  pose proof (sorted_Sorted values) as Hs.
  set (v := sorted values) in *.
  set (n1 := inject_Z (len v - 1)) in *.
  assert (Hn : (0 <= n1)%Q).
  { unfold n1. rewrite <- (Zle_Qle 0). unfold len, v. rewrite sorted_length.
    destruct values; [congruence|]. simpl. lia. }
  split.
  { rewrite E1, E2. apply at_index_mono; [exact Hs | exact Ha1 | nra | exact Hb2]. }
  split.
  { exists (nth (Z.to_nat (Qfloor (n1 * q1))) v 0%Q). split.
    - apply (Permutation_in _ (sorted_perm values)). apply nth_In.
      assert (0 <= Qfloor (n1 * q1)).
      { rewrite <- (Qfloor_Z 0). now apply Qfloor_resp_le. }
      assert (Qfloor (n1 * q1) <= len v - 1).
      { rewrite <- (Qfloor_Z (len v - 1)). now apply Qfloor_resp_le. }
      unfold len in *. fold v. lia.
    - rewrite E1. now apply at_index_between. }
  intros x xs Hv.
  apply Qle_trans with (nth (Z.to_nat (Qceiling (n1 * q2))) v 0%Q).
  { rewrite E2. now apply at_index_between. }
  apply py_max_upper. rewrite <- Hv.
  apply (Permutation_in _ (sorted_perm values)). apply nth_In.
  assert (0 <= Qceiling (n1 * q2)).
  { rewrite <- (Qceiling_Z 0). now apply Qceiling_resp_le. }
  assert (Qceiling (n1 * q2) <= len v - 1).
  { rewrite <- (Qceiling_Z (len v - 1)). now apply Qceiling_resp_le. }
  unfold len in *. fold v. lia.
Qed.

(** X5. [quantile] never decreases with q: on the same samples and
    for 0 <= q1 <= q2 <= 1 its value at q1 is at most its value at q2; and
    each value lies between a sample and the largest sample. *)
Theorem quantile_is_monotone (values : list Q) (q1 q2 r1 r2 : Q) :
  (0 <= q1)%Q -> (q1 <= q2)%Q -> (q2 <= 1)%Q ->
  Collector.quantile values q1 = Ok (Some r1) ->
  Collector.quantile values q2 = Ok (Some r2) ->
  (r1 <= r2)%Q
  /\ (exists a, In a values /\ (a <= r1)%Q)
  /\ (forall x xs, values = x :: xs -> (r2 <= py_max x xs)%Q).
Proof. apply quantile_order. Qed.

(** X5 on the samples 30, 10, 20: the median is at most the 95th
    percentile. *)
Lemma quantile_is_monotone_witness :
  exists r1 r2,
    Collector.quantile [30; 10; 20]%Q (1 # 2) = Ok (Some r1)
    /\ Collector.quantile [30; 10; 20]%Q (95 # 100) = Ok (Some r2)
    /\ (r1 <= r2)%Q.
Proof.
  eexists. eexists. split; [vm_compute; reflexivity|].
  split; [vm_compute; reflexivity|].
  apply (quantile_is_monotone [30; 10; 20]%Q (1 # 2) (95 # 100));
    try discriminate; vm_compute; reflexivity.
Defined.

(** ** The order of the latency fields of a record *)

Lemma round_half_even_cases (x : Q) :
  round_half_even x = Qfloor x
  \/ (round_half_even x = Qfloor x + 1 /\ (1 # 2 <= x - inject_Z (Qfloor x))%Q).
Proof.
  unfold round_half_even.
  destruct (x - inject_Z (Qfloor x) ?= 1 # 2)%Q eqn:E.
  - apply Qeq_alt in E. destruct (Z.even (Qfloor x)); [left; reflexivity|].
    right. split; [reflexivity|]. rewrite E. apply Qle_refl.
  - left. reflexivity.
  - apply Qgt_alt in E. right. split; [reflexivity | now apply Qlt_le_weak].
Qed.

Lemma round_half_even_mono (x y : Q) :
  (x <= y)%Q -> round_half_even x <= round_half_even y.
Proof.
  intros Hxy. pose proof (Qfloor_resp_le _ _ Hxy) as Hf.
  destruct (Z.eq_dec (Qfloor x) (Qfloor y)) as [E|E].
  - unfold round_half_even. rewrite <- E.
    set (f := Qfloor x) in *.
    destruct (Qcompare_spec (x - inject_Z f) (1 # 2)) as [Ex|Ex|Ex];
      destruct (Qcompare_spec (y - inject_Z f) (1 # 2)) as [Ey|Ey|Ey];
      destruct (Z.even f); try lia; exfalso; lra.
  - destruct (round_half_even_cases x) as [Hx|[Hx _]];
      destruct (round_half_even_cases y) as [Hy|[Hy _]]; lia.
Qed.

Lemma py_round_mono (x y : Q) (n : nat) :
  (x <= y)%Q -> (py_round x n <= py_round y n)%Q.
Proof.
  intros Hxy. unfold py_round. rewrite !Qred_correct.
  set (p := pow10 n).
  assert (Hp : (0 < inject_Z (Zpos p))%Q) by (rewrite <- (Zlt_Qlt 0); lia).
  assert (H : round_half_even (x * inject_Z (Zpos p))
              <= round_half_even (y * inject_Z (Zpos p))).
  { apply round_half_even_mono. nra. }
  unfold Qle. simpl. nia.
Qed.

Lemma Qsum_le (l : list Q) (m : Q) :
  Forall (fun y => y <= m)%Q l -> (Qsum l <= inject_Z (len l) * m)%Q.
Proof.
  induction 1 as [|y l Hy Hl IH]; unfold len in *.
  - unfold Qle. simpl. lia.
  - change (Qsum (y :: l)) with (y + Qsum l)%Q.
    cbn [length]. rewrite Nat2Z.inj_succ, <- Z.add_1_r, inject_Z_plus.
    change (inject_Z 1) with 1%Q.
    generalize dependent (inject_Z (Z.of_nat (length l))). intros k IH. lra.
Qed.

Lemma Qsum_nonneg (l : list Q) :
  Forall (fun y => 0 <= y)%Q l -> (0 <= Qsum l)%Q.
Proof.
  induction 1 as [|y l Hy Hl IH]; simpl; [apply Qle_refl|]. fold (Qsum l). lra.
Qed.

Lemma mean_bounds (t : Q) (ts : list Q) :
  (mean (t :: ts) <= py_max t ts)%Q
  /\ (Forall (fun y => 0 <= y)%Q (t :: ts) -> (0 <= mean (t :: ts))%Q).
Proof.
  assert (Hn : (0 < inject_Z (len (t :: ts)))%Q).
  { rewrite <- (Zlt_Qlt 0). unfold len. simpl. lia. }
  unfold mean. split.
  - apply Qle_shift_div_r; [exact Hn|].
    rewrite Qmult_comm. apply Qsum_le.
    apply Forall_forall. intros y Hy. apply py_max_upper. now apply list_elem_of_In.
  - intros Hpos. apply Qle_shift_div_l; [exact Hn|].
    rewrite Qmult_0_l. now apply Qsum_nonneg.
Qed.

Lemma py_round_zero (n : nat) : (py_round 0 n == 0)%Q.
Proof.
  unfold py_round. rewrite Qred_correct. unfold round_half_even. simpl.
  reflexivity.
Qed.

Section Ordered.

Variable float_sqrt : Q -> Q.

Lemma latency_order (t : Q) (ts : list Q) (count : Z) :
  Forall (fun y => 0 <= y)%Q (t :: ts) ->
  exists r a b,
    Collector.ping_stats_of float_sqrt (t :: ts) count = Ok r
    /\ Collector.avg_ms r = Collector.CFloat (py_round (mean (t :: ts)) 3)
    /\ Collector.p50_ms r = Collector.CFloat (py_round a 3)
    /\ Collector.p95_ms r = Collector.CFloat (py_round b 3)
    /\ Collector.max_ms r = Collector.CFloat (py_round (py_max t ts) 3)
    /\ (0 <= py_round a 3)%Q
    /\ (py_round a 3 <= py_round b 3)%Q
    /\ (py_round b 3 <= py_round (py_max t ts) 3)%Q
    /\ (0 <= py_round (mean (t :: ts)) 3)%Q
    /\ (py_round (mean (t :: ts)) 3 <= py_round (py_max t ts) 3)%Q.
Proof.
  intros Hpos.
  destruct (quantile_total t ts (1 # 2)) as [a Ha]; [split; discriminate|].
  destruct (quantile_total t ts (95 # 100)) as [b Hb]; [split; discriminate|].
  destruct (quantile_order (t :: ts) (1 # 2) (95 # 100) a b) as (Hab & (m & Hm & Hma) & Hmax);
    try discriminate; try assumption.
  exists {| Collector.sent := count;
            Collector.received := len (t :: ts);
            Collector.loss_pct := py_round (loss_of count (len (t :: ts))) 2;
            Collector.avg_ms := Collector.cell_of (Some (mean (t :: ts))) 3;
            Collector.p50_ms := Collector.cell_of (Some a) 3;
            Collector.p95_ms := Collector.cell_of (Some b) 3;
            Collector.max_ms := Collector.cell_of (Some (py_max t ts)) 3;
            Collector.jitter_ms :=
              Collector.cell_of
                (if 2 <=? len (t :: ts)
                 then Some (Collector.pstdev float_sqrt (t :: ts)) else Some 0%Q) 3 |}, a, b.
  split.
  { unfold Collector.ping_stats_of. rewrite Ha, Hb. reflexivity. }
  cbn [Collector.avg_ms Collector.p50_ms Collector.p95_ms Collector.max_ms
       Collector.cell_of].
  repeat (split; [reflexivity|]).
  destruct (mean_bounds t ts) as [Hmean_max Hmean0].
  assert (Ha0 : (0 <= a)%Q).
  { apply Qle_trans with m; [|exact Hma].
    rewrite Forall_forall in Hpos. now apply Hpos, list_elem_of_In. }
  split; [rewrite <- (py_round_zero 3) at 1; now apply py_round_mono|].
  split; [now apply py_round_mono|].
  split; [apply py_round_mono; now apply (Hmax t ts)|].
  split; [rewrite <- (py_round_zero 3) at 1; apply py_round_mono; now apply Hmean0|].
  now apply py_round_mono.
Qed.

End Ordered.

(** X6. In every record of a probe that was answered, the latency
    fields are numbers in the order 0 <= p50 <= p95 <= max, and the average
    lies between 0 and max. *)
Theorem latency_fields_are_ordered (float_sqrt : Q -> Q) (w : Collector.world)
    (host : pystr) (count : Z) (p : Collector.CompletedProcess) (times : list Q) :
  Collector.spawn w (Collector.ping_args host count) 8 = Collector.Exited p ->
  Collector.parse_ping_times_ms (Collector.stdout p) = Ok times ->
  times <> [] ->
  exists r avg p50 p95 mx,
    Collector.ping_target float_sqrt w host count = Ok r
    /\ Collector.avg_ms r = Collector.CFloat avg
    /\ Collector.p50_ms r = Collector.CFloat p50
    /\ Collector.p95_ms r = Collector.CFloat p95
    /\ Collector.max_ms r = Collector.CFloat mx
    /\ (0 <= p50)%Q /\ (p50 <= p95)%Q /\ (p95 <= mx)%Q
    /\ (0 <= avg)%Q /\ (avg <= mx)%Q.
Proof.
  intros Hrun Hparse Hne.
  rewrite (ping_target_exited float_sqrt w host count p times Hrun Hparse).
  assert (Hpos : Forall (fun y => 0 <= y)%Q times).
  { eapply parse_lines_nonneg, Hparse. }
  destruct times as [|t ts]; [congruence|].
  destruct (latency_order float_sqrt t ts count Hpos)
    as (r & a & b & Hr & H1 & H2 & H3 & H4 & H5 & H6 & H7 & H8 & H9).
  exists r, (py_round (mean (t :: ts)) 3), (py_round a 3), (py_round b 3),
    (py_round (py_max t ts) 3).
  repeat (split; [assumption|]). assumption.
Qed.

(** X6 on the replies 1.0 ms and 3.0 ms. *)
Lemma latency_fields_are_ordered_witness :
  exists r avg p50 p95 mx,
    Collector.ping_target Examples.sqrt12
      (Examples.printing 0 Examples.two_replies) Examples.host 2 = Ok r
    /\ Collector.avg_ms r = Collector.CFloat avg
    /\ Collector.p50_ms r = Collector.CFloat p50
    /\ Collector.p95_ms r = Collector.CFloat p95
    /\ Collector.max_ms r = Collector.CFloat mx
    /\ (0 <= p50)%Q /\ (p50 <= p95)%Q /\ (p95 <= mx)%Q
    /\ (0 <= avg)%Q /\ (avg <= mx)%Q.
Proof.
  apply (latency_fields_are_ordered Examples.sqrt12
           (Examples.printing 0 Examples.two_replies) Examples.host 2
           {| Collector.returncode := 0; Collector.stdout := Examples.two_replies;
              Collector.stderr := [] |} [1; 3]%Q).
  - reflexivity.
  - vm_compute. reflexivity.
  - discriminate.
Defined.

(** ** The newest dataset *)

Lemma newest_fold (l pre post : list Transform.dataset) (b : Transform.dataset) :
  Forall (fun g => Transform.st_mtime g < Transform.st_mtime b)%Q pre ->
  Forall (fun g => Transform.st_mtime g <= Transform.st_mtime b)%Q post ->
  exists pre' post',
    pre ++ b :: post ++ l
    = pre' ++ fold_left
               (fun best g =>
                  if Qle_bool (Transform.st_mtime g) (Transform.st_mtime best)
                  then best else g) l b :: post'
    /\ Forall (fun g => Transform.st_mtime g
                        < Transform.st_mtime
                            (fold_left
                               (fun best g =>
                                  if Qle_bool (Transform.st_mtime g) (Transform.st_mtime best)
                                  then best else g) l b))%Q pre'
    /\ Forall (fun g => Transform.st_mtime g
                        <= Transform.st_mtime
                             (fold_left
                                (fun best g =>
                                   if Qle_bool (Transform.st_mtime g) (Transform.st_mtime best)
                                   then best else g) l b))%Q post'.
Proof.
  revert pre post b. induction l as [|g l IH]; intros pre post b Hpre Hpost.
  - exists pre, post. rewrite app_nil_r. auto.
  - cbn [fold_left].
    destruct (Qle_bool (Transform.st_mtime g) (Transform.st_mtime b)) eqn:E.
    + apply Qle_bool_iff in E.
      destruct (IH pre (post ++ [g]) b Hpre) as (pre' & post' & Heq & H1 & H2).
      { apply Forall_app. split; [exact Hpost | now constructor]. }
      exists pre', post'. rewrite <- Heq, <- app_assoc. auto.
    + assert (Hlt : (Transform.st_mtime b < Transform.st_mtime g)%Q).
      { apply Qnot_le_lt. intros H. apply Qle_bool_iff in H. congruence. }
      destruct (IH (pre ++ b :: post) [] g) as (pre' & post' & Heq & H1 & H2).
      { apply Forall_app. split.
        - eapply Forall_impl; [exact Hpre|]. intros x Hx. simpl in Hx. lra.
        - constructor; [exact Hlt|].
          eapply Forall_impl; [exact Hpost|]. intros x Hx. simpl in Hx. lra. }
      { constructor. }
      exists pre', post'. rewrite <- Heq, <- app_assoc. auto.
Qed.

(** X7. [newest_by_mtime] returns None exactly on an empty
    directory; otherwise it returns a file of the directory that no other
    file is newer than, and of several files of that same modification
    time the one that the directory lists first. *)
Theorem newest_by_mtime_is_newest (files : list Transform.dataset) :
  (Transform.newest_by_mtime files = None <-> files = [])
  /\ (forall f, Transform.newest_by_mtime files = Some f ->
        exists pre post,
          files = pre ++ f :: post
          /\ Forall (fun g => Transform.st_mtime g < Transform.st_mtime f)%Q pre
          /\ Forall (fun g => Transform.st_mtime g <= Transform.st_mtime f)%Q post).
Proof.
  split.
  - destruct files; simpl; split; intros H; congruence.
  - intros f Hf. destruct files as [|b l]; [discriminate|].
    simpl in Hf. inversion Hf as [Hf'].
    destruct (newest_fold l [] [] b) as (pre & post & Heq & H1 & H2);
      [constructor | constructor |].
    exists pre, post. simpl in Heq. rewrite Heq. auto.
Qed.

(** ** What the transform leaves alone *)

(** [mkdir] only adds directories. *)
Lemma mkdir_from_keeps (base : Fs.path) (rest : list pystr) (s s' : Fs.fs)
    (q : Fs.path) :
  Fs.mkdir_from base rest s = Ok s' ->
  s' !! q = s !! q \/ (s !! q = None /\ s' !! q = Some Fs.Dir).
Proof.
  revert base s. induction rest as [|c rest IH]; simpl; intros base s H.
  - inversion H. left. reflexivity.
  - destruct (s !! (base ++ [c])) as [[|content]|] eqn:E; [| discriminate |].
    + now apply IH in H.
    + apply IH in H. destruct (decide (q = base ++ [c])) as [->|Hne].
      * rewrite lookup_insert_eq in H. right. split; [exact E|].
        destruct H as [H|[H _]]; congruence.
      * rewrite lookup_insert_ne in H by congruence. exact H.
Qed.

Lemma open_w_elsewhere (p q : Fs.path) (s s' : Fs.fs) :
  Fs.open_w p s = Ok s' -> q <> p -> s' !! q = s !! q.
Proof.
  unfold Fs.open_w. destruct (negb _); [discriminate|].
  destruct p as [|c p]; [discriminate|].
  destruct (s !! (c :: p)) as [[|content]|]; intros H Hq; inversion H; subst;
    now rewrite lookup_insert_ne by congruence.
Qed.

Lemma write_elsewhere (p q : Fs.path) (text : pystr) (s s' : Fs.fs) :
  Fs.write p text s = Ok s' -> q <> p -> s' !! q = s !! q.
Proof.
  unfold Fs.write. destruct (s !! p) as [[|content]|]; intros H Hq;
    inversion H; subst.
  now rewrite lookup_insert_ne by congruence.
Qed.

Lemma replace_elsewhere (src dst q : Fs.path) (s s' : Fs.fs) :
  Fs.replace src dst s = Ok s' -> q <> src -> q <> dst -> s' !! q = s !! q.
Proof.
  unfold Fs.replace. destruct (s !! src) as [[|c]|]; try discriminate.
  destruct (s !! dst) as [[|c']|]; intros H H1 H2; inversion H; subst;
    (rewrite lookup_insert_ne by congruence; now rewrite lookup_delete_ne by congruence).
Qed.

Lemma exec_elsewhere (st : Transform.step) (s s' : Fs.fs) (q : Fs.path) :
  Shape.snapshot_step st = true ->
  q <> Transform.TMP -> q <> Transform.OUT ->
  Transform.exec st s = Ok s' ->
  s' !! q = s !! q \/ (s !! q = None /\ s' !! q = Some Fs.Dir).
Proof.
  destruct st as [d|p|p text|src dst]; cbn [Shape.snapshot_step Transform.exec];
    intros Hst Hq1 Hq2 H.
  - eapply mkdir_from_keeps, H.
  - apply bool_decide_eq_true in Hst. subst p. left.
    now apply (open_w_elsewhere _ _ _ _ H).
  - apply bool_decide_eq_true in Hst. subst p. left.
    now apply (write_elsewhere _ _ _ _ _ H).
  - apply andb_true_iff in Hst. destruct Hst as [H1 H2].
    apply bool_decide_eq_true in H1, H2. subst src dst. left.
    now apply (replace_elsewhere _ _ _ _ _ H).
Qed.

Lemma exec_all_elsewhere (sts : list Transform.step) (s : Fs.fs) (q : Fs.path) :
  forallb Shape.snapshot_step sts = true ->
  q <> Transform.TMP -> q <> Transform.OUT ->
  (Transform.exec_all sts s).1 !! q = s !! q
  \/ (s !! q = None /\ (Transform.exec_all sts s).1 !! q = Some Fs.Dir).
Proof.
  intros Hsts Hq1 Hq2. revert s. induction sts as [|st sts IH]; intros s; simpl.
  - left. reflexivity.
  - simpl in Hsts. apply andb_true_iff in Hsts. destruct Hsts as [Hst Hsts].
    destruct (Transform.exec st s) as [s'|e] eqn:E; [|left; reflexivity].
    destruct (exec_elsewhere st s s' q Hst Hq1 Hq2 E) as [H|[H1 H2]];
      destruct (IH Hsts s') as [H'|[H1' H2']].
    + left. congruence.
    + right. split; congruence.
    + right. split; congruence.
    + congruence.
Qed.

Section Frame.

Variable fromisoformat : pystr -> result Transform.datetime.

Lemma main_snapshot_steps (now : Z) (files : list Transform.dataset) :
  forallb Shape.snapshot_step (Transform.main fromisoformat now files) = true.
Proof.
  unfold Transform.main. cbn [forallb Shape.snapshot_step].
  destruct (Transform.newest_by_mtime files) as [src|]; [|reflexivity].
  unfold Transform.publish. rewrite !forallb_app. cbn [forallb Shape.snapshot_step].
  rewrite !bool_decide_eq_true_2 by reflexivity. cbn [andb].
  rewrite andb_true_r. apply forallb_forall. intros st Hin.
  apply in_map_iff in Hin. destruct Hin as (t & <- & _).
  cbn [Shape.snapshot_step]. now apply bool_decide_eq_true.
Qed.

End Frame.

(** X8. The transform only reads the data: at every point of a run,
    interrupted or not, every file and directory other than latest.csv and
    latest.csv.tmp is as it was before the run, apart from the
    directories that [mkdir] added; and on a data directory without file
    the run is the one step that makes the directory, after which the
    published snapshot is untouched as well. *)
Theorem transform_only_reads_the_data
    (fromisoformat : pystr -> result Transform.datetime)
    (now : Z) (files : list Transform.dataset) (s : Fs.fs) (k : nat) :
  (forall q n, q <> Transform.TMP -> q <> Transform.OUT -> s !! q = Some n ->
     (Transform.exec_all (take k (Transform.main fromisoformat now files)) s).1 !! q
     = Some n)
  /\ (forall q, q <> Transform.TMP -> q <> Transform.OUT -> s !! q = None ->
        (Transform.exec_all (take k (Transform.main fromisoformat now files)) s).1 !! q
        = None
        \/ (Transform.exec_all (take k (Transform.main fromisoformat now files)) s).1 !! q
           = Some Fs.Dir)
  /\ (files = [] ->
      Transform.main fromisoformat now files
      = [Transform.MkdirParents Transform.VIZ_DIR]
      /\ (Transform.exec_all (Transform.main fromisoformat now files) s).1
           !! Transform.OUT = s !! Transform.OUT
      /\ (Transform.exec_all (Transform.main fromisoformat now files) s).1
           !! Transform.TMP = s !! Transform.TMP).
Proof.
  assert (Hsteps : forallb Shape.snapshot_step
                     (take k (Transform.main fromisoformat now files)) = true).
  { apply forallb_take, main_snapshot_steps. }
  split.
  { intros q n Hq1 Hq2 Hn.
    destruct (exec_all_elsewhere _ s q Hsteps Hq1 Hq2) as [H|[H _]]; congruence. }
  split.
  { intros q Hq1 Hq2 Hn.
    destruct (exec_all_elsewhere _ s q Hsteps Hq1 Hq2) as [H|[_ H]];
      [left | right]; congruence. }
  intros ->. split; [reflexivity|].
  cbn [Transform.main Transform.newest_by_mtime Transform.exec_all Transform.exec].
  unfold Fs.mkdir_parents.
  destruct (Fs.mkdir_from [] Transform.VIZ_DIR s) as [s'|e] eqn:E;
    [|split; reflexivity].
  split; (eapply mkdir_from_frame; [exact E | simpl; lia]).
Qed.

(** ** The rows of the snapshot *)

Lemma sanitize_field_again (v : option pystr) :
  Transform.sanitize_field (Some (Transform.sanitize_field v))
  = Transform.sanitize_field v.
Proof.
  pose proof (sanitize_no_break v) as Hb.
  pose proof (sanitize_no_tab v) as Ht.
  pose proof (sanitize_stripped v) as Hs.
  destruct (Transform.sanitize_field v) as [|c t] eqn:E; [reflexivity|].
  unfold Transform.sanitize_field at 1.
  rewrite (splitlines_of_line _ Hb), join_singleton.
  now rewrite (replace_char_absent _ _ _ Ht).
Qed.

Lemma sanitize_column_other (key k : pystr) (r : Transform.row) :
  k <> key -> Transform.sanitize_column key r !! k = r !! k.
Proof.
  intros Hk. unfold Transform.sanitize_column.
  destruct (r !! key); [|reflexivity]. now rewrite lookup_insert_ne by congruence.
Qed.

Lemma sanitize_column_same (key : pystr) (r : Transform.row) :
  Transform.sanitize_column key r !! key
  = (fun v => Some (Transform.sanitize_field v)) <$> (r !! key).
Proof.
  unfold Transform.sanitize_column, Transform.get.
  destruct (r !! key) as [v|] eqn:E; simpl; [|exact E].
  now rewrite lookup_insert_eq.
Qed.

Lemma sanitize_column_idem (key : pystr) (r : Transform.row) :
  Transform.sanitize_column key (Transform.sanitize_column key r)
  = Transform.sanitize_column key r.
Proof.
  apply map_eq. intros k. destruct (decide (k = key)) as [->|Hk].
  - rewrite !sanitize_column_same. destruct (r !! key) as [v|]; [|reflexivity].
    cbn [fmap option_fmap option_map]. now rewrite sanitize_field_again.
  - now rewrite !sanitize_column_other by exact Hk.
Qed.

Lemma sanitize_row_lookup (r : Transform.row) (k : pystr) :
  Transform.sanitize_row r !! k
  = if decide (k = of_string "traceroute_snip"
               \/ k = of_string "speedtest_raw_json")
    then (fun v => Some (Transform.sanitize_field v)) <$> (r !! k)
    else r !! k.
Proof.
  unfold Transform.sanitize_row.
  destruct (decide (k = of_string "speedtest_raw_json")) as [->|H1].
  - rewrite sanitize_column_same, sanitize_column_other by discriminate.
    now rewrite decide_True by (right; reflexivity).
  - rewrite sanitize_column_other by exact H1.
    destruct (decide (k = of_string "traceroute_snip")) as [->|H2].
    + rewrite sanitize_column_same. now rewrite decide_True by (left; reflexivity).
    + rewrite sanitize_column_other by exact H2.
      now rewrite decide_False by (intros [?|?]; congruence).
Qed.

(** X9. Sanitizing a row changes the columns traceroute_snip and
    speedtest_raw_json only; the row keeps its columns; in the two columns
    a value, None included, is replaced by its sanitized text; and
    sanitizing a sanitized row changes nothing. *)
Theorem sanitize_row_touches_two_columns (r : Transform.row) :
  (forall k, k <> of_string "traceroute_snip" ->
             k <> of_string "speedtest_raw_json" ->
             Transform.sanitize_row r !! k = r !! k)
  /\ (forall k, is_Some (Transform.sanitize_row r !! k) <-> is_Some (r !! k))
  /\ (forall k v, k = of_string "traceroute_snip"
                  \/ k = of_string "speedtest_raw_json" ->
                  r !! k = Some v ->
                  Transform.sanitize_row r !! k
                  = Some (Some (Transform.sanitize_field v)))
  /\ Transform.sanitize_row (Transform.sanitize_row r) = Transform.sanitize_row r.
Proof.
  split.
  { intros k H1 H2. rewrite sanitize_row_lookup.
    now rewrite decide_False by (intros [?|?]; congruence). }
  split.
  { intros k. rewrite sanitize_row_lookup.
    destruct (decide _); [|reflexivity]. now rewrite fmap_is_Some. }
  split.
  { intros k v Hk Hv. rewrite sanitize_row_lookup, decide_True by exact Hk.
    now rewrite Hv. }
  apply map_eq. intros k. rewrite !sanitize_row_lookup.
  destruct (decide _); [|reflexivity].
  destruct (r !! k) as [v|]; [|reflexivity].
  cbn [fmap option_fmap option_map]. now rewrite sanitize_field_again.
Qed.

Section Again.

Variable fromisoformat : pystr -> result Transform.datetime.

Lemma select_again (now : Z) (r r' : Transform.row) :
  Transform.select fromisoformat now r = Some r' ->
  Transform.select fromisoformat now r' = Some r'.
Proof.
  intros H. apply select_some in H. destruct H as [(t & Ht & Hw) ->].
  apply select_some. split.
  - exists t. split; [|exact Hw]. unfold Transform.get.
    rewrite sanitize_row_lookup, decide_False by (intros [?|?]; discriminate).
    exact Ht.
  - apply map_eq. intros k. rewrite !sanitize_row_lookup.
    destruct (decide _); [|reflexivity].
    destruct (r !! k) as [v|]; [|reflexivity].
    cbn [fmap option_fmap option_map]. now rewrite sanitize_field_again.
Qed.

Lemma rows_out_again (now : Z) (rows : list Transform.row) :
  Transform.rows_out fromisoformat now (Transform.rows_out fromisoformat now rows)
  = Transform.rows_out fromisoformat now rows.
Proof.
  induction rows as [|r rows IH]; [reflexivity|].
  rewrite (rows_out_cons fromisoformat now r rows).
  destruct (Transform.select fromisoformat now r) as [r'|] eqn:E; [|exact IH].
  rewrite (rows_out_cons fromisoformat now r' _), (select_again now r r' E).
  now rewrite IH.
Qed.

Lemma rows_out_length (now : Z) (rows : list Transform.row) :
  (length (Transform.rows_out fromisoformat now rows) <= length rows)%nat.
Proof.
  induction rows as [|r rows IH]; [simpl; lia|].
  rewrite (rows_out_cons fromisoformat now r rows).
  destruct (Transform.select fromisoformat now r); simpl; lia.
Qed.

End Again.

(** X10. The selection of the transform is idempotent: selecting, at
    the same instant, among the rows that were selected returns these rows
    unchanged. *)
Theorem window_selection_is_idempotent
    (fromisoformat : pystr -> result Transform.datetime)
    (now : Z) (rows : list Transform.row) :
  Transform.rows_out fromisoformat now (Transform.rows_out fromisoformat now rows)
  = Transform.rows_out fromisoformat now rows.
Proof. apply rows_out_again. Qed.

(** X11. The snapshot has one header record and one record for each
    selected row, never more records than the dataset has rows plus one;
    read back by the csv reader, the header is the list of the columns and
    each record has exactly one field for each column, the values of the
    row in the order of the columns. *)
Theorem snapshot_records_align
    (fromisoformat : pystr -> result Transform.datetime)
    (now : Z) (cols : list pystr) (rows : list Transform.row) :
  length (Transform.snapshot_lines cols (Transform.rows_out fromisoformat now rows))
  = S (length (Transform.rows_out fromisoformat now rows))
  /\ (length (Transform.snapshot_lines cols
                (Transform.rows_out fromisoformat now rows))
      <= S (length rows))%nat
  /\ map Csv.reader
       (Transform.snapshot_lines cols (Transform.rows_out fromisoformat now rows))
     = cols :: map (Transform.row_values cols)
                 (Transform.rows_out fromisoformat now rows)
  /\ Forall (fun line => length (Csv.reader line) = length cols)
       (Transform.snapshot_lines cols (Transform.rows_out fromisoformat now rows)).
Proof.
  pose proof (rows_out_length fromisoformat now rows) as Hlen.
  set (kept := Transform.rows_out fromisoformat now rows) in *.
  unfold Transform.snapshot_lines.
  split; [simpl; now rewrite length_map|].
  split; [simpl; rewrite length_map; lia|].
  assert (Hread : forall l : list Transform.row,
            map Csv.reader (map (fun r => Csv.writerow (Transform.row_values cols r)) l)
            = map (Transform.row_values cols) l).
  { intros l. rewrite map_map. apply map_ext. intros r. apply reader_writerow. }
  split.
  { cbn [map]. now rewrite reader_writerow, Hread. }
  constructor; [now rewrite reader_writerow|].
  apply Forall_forall. intros line Hin. apply list_elem_of_In, in_map_iff in Hin.
  destruct Hin as (r & <- & _). rewrite reader_writerow.
  unfold Transform.row_values. apply length_map.
Qed.
